(** * MatrixRGB: the rendering engine of [main.go], embedded and verified

    The Go program is embedded function by function.  Go's [int] is the
    64-bit signed integer of the amd64 and arm64 builds (the arm build of
    [build.sh] has the same arithmetic on 32 bits): values are carried as
    [Z] and every [+], [-] and [*] of the source is written with its
    wrap-around.  [/] and [%] truncate toward zero ([Z.quot], [Z.rem]).
    Go's [float64] is Rocq's primitive binary64 [float], every operation
    rounded on its own as on amd64, and [math.Sin] is a parameter.
    [math/rand] is an injected source of raw draws, the buffered writer
    is a list of cursor-addressed instructions together with the byte
    strings they are printed as, and a run-time panic ([rand.Intn] of a
    non-positive bound, [make] of a negative length or of more than the
    runtime allocates) is an explicit outcome. *)

From Stdlib Require Import Floats.
From Stdlib Require Import ZArith List String Ascii Bool Lia DecimalString.
From Stdlib Require Import Reals Lra Psatz Zfloor.
Import ListNotations.

Local Open Scope Z_scope.

(** ** Go's machine integers *)

Module GoInt.

Definition min_int : Z := - 2 ^ 63.
Definition max_int : Z := 2 ^ 63 - 1.

(** [in_int z]: [z] is a value of Go's type [int]. *)
Definition in_int (z : Z) : Prop := min_int <= z <= max_int.

(** Two's complement wrap-around of an exact result. *)
Definition wrap (z : Z) : Z := (z + 2 ^ 63) mod 2 ^ 64 - 2 ^ 63.

Definition add (a b : Z) : Z := wrap (a + b).
Definition sub (a b : Z) : Z := wrap (a - b).
Definition mul (a b : Z) : Z := wrap (a * b).

(** [a / b] and [a % b] for a non-zero constant or checked divisor. *)
Definition quot (a b : Z) : Z := wrap (Z.quot a b).
Definition rem (a b : Z) : Z := Z.rem a b.

Definition len {A : Type} (l : list A) : Z := Z.of_nat (List.length l).

End GoInt.

Import GoInt.

(** ** Outcomes: a value or a run-time panic *)

Inductive result (A : Type) : Type :=
| Ok (a : A)
| Panic (msg : string).

Arguments Ok {A} a.
Arguments Panic {A} msg.

(** ** The random source

    [math/rand] is outside the repository.  A source is the sequence of
    its raw draws (a finite script, continued by zeros); [Intn n]
    reduces the next raw draw into [[0,n)] and panics on [n <= 0], as the
    library documents.  Every value of [[0,n)] is the outcome of some
    source. *)

Definition Rand : Type := list Z.

Definition Intn (n : Z) (r : Rand) : result (Z * Rand) :=
  if n <=? 0 then Panic "invalid argument to Intn"
  else Ok (hd 0 r mod n, tl r).

(** ** Frame delay and column count *)

(** [time.Millisecond], in the nanoseconds of [time.Duration] (an int64). *)
Definition Millisecond : Z := 1000000.

Definition calculateFrameDelay (speed : Z) : Z :=
  let ms := sub 160 (mul speed 12) in
  let ms := if ms <? 20 then 20 else ms in
  mul ms Millisecond.

Definition calculateColumnCount (width density : Z) : Z :=
  let columns := quot (mul width density) 100 in
  let columns := if columns <? 1 then 1 else columns in
  let columns := if columns >? width then width else columns in
  columns.

(** The speeds for which neither [speed*12] nor the nanosecond count
    leaves the 64-bit range. *)
Definition safe_speed (s : Z) : Prop :=
  in_int (s * 12) /\ Z.max 20 (160 - s * 12) * Millisecond <= max_int.

(** The specification's [clamp(x, lo, hi)], over the exact integers. *)
Definition clamp (x lo hi : Z) : Z := Z.min (Z.max x lo) hi.

(** The specification's column count: exact product, integer division. *)
Definition columnCount_spec (width density : Z) : Z :=
  clamp (width * density / 100) 1 width.

(** ** Terminal geometry *)

Definition minTermHeight : Z := 10.
Definition minTermWidth : Z := 20.

Definition clampDimensions (width height : Z) : Z * Z :=
  let width := if width <? minTermWidth then minTermWidth else width in
  let height := if height <? minTermHeight then minTermHeight else height in
  (width, height).

(** ** The rainbow table lookup *)

Definition rainbowColor (table : list string) (position : Z) : string :=
  if len table =? 0 then "255;255;255"%string
  else
    let index := rem position (len table) in
    let index := if index <? 0 then index + len table else index in
    nth (Z.to_nat index) table ""%string.

(** ** Columns *)

(** A rune is a Unicode code point; [0] is the zero value ("no glyph"). *)
Definition rune : Type := Z.

(** Katakana characters used in the original Matrix rain effect
    (U+FF71 .. U+FF9F, with U+FF98 listed twice as in the source). *)
Definition katakanaChars : list rune :=
  [65393; 65394; 65395; 65396; 65397; 65398; 65399; 65400; 65401; 65402;
   65403; 65404; 65405; 65406; 65407; 65408; 65409; 65410; 65411; 65412;
   65413; 65414; 65415; 65416; 65417; 65418; 65419; 65420; 65421; 65422;
   65423; 65424; 65425; 65426; 65427; 65428; 65429; 65430; 65431; 65432;
   65432; 65436; 65438; 65439].

Record column : Type := mkColumn {
  active : bool;
  head : Z;
  gap : Z;
  length : Z;
  colorOffset : Z;
  lastChar : rune
}.

(** The zero value [make] fills a slice with. *)
Definition zeroColumn : column := mkColumn false 0 0 0 0 0.

(** ** The output buffer *)

(** One [fmt.Fprintf] of [drawColumnFrame]: a bold head glyph, a dim
    trail glyph, or the erasure of one cell. *)
Inductive Instr : Type :=
| DrawBold (row col : Z) (color : string) (glyph : rune)
| DrawDim (row col : Z) (color : string) (glyph : rune)
| Erase (row col : Z).

Definition ESC : string := String (ascii_of_nat 27) EmptyString.

(** [%d] *)
Definition itoa (z : Z) : string := NilZero.string_of_int (Z.to_int z).

Definition byte_string (z : Z) : string :=
  String (ascii_of_nat (Z.to_nat z)) EmptyString.

(** [string(r)]: the UTF-8 encoding of a rune, U+FFFD for an invalid one. *)
Definition utf8 (r : rune) : string :=
  if (r <? 0) || (r >? 1114111) || ((55296 <=? r) && (r <=? 57343)) then
    (byte_string 239 ++ byte_string 191 ++ byte_string 189)%string
  else if r <? 128 then byte_string r
  else if r <? 2048 then
    (byte_string (192 + r / 64) ++ byte_string (128 + r mod 64))%string
  else if r <? 65536 then
    (byte_string (224 + r / 4096) ++ byte_string (128 + (r / 64) mod 64)
       ++ byte_string (128 + r mod 64))%string
  else
    (byte_string (240 + r / 262144) ++ byte_string (128 + (r / 4096) mod 64)
       ++ byte_string (128 + (r / 64) mod 64)
       ++ byte_string (128 + r mod 64))%string.

(** The bytes each instruction is printed as. *)
Definition render (i : Instr) : string :=
  match i with
  | DrawBold row col color glyph =>
      (ESC ++ "[" ++ itoa row ++ ";" ++ itoa col ++ "H"
           ++ ESC ++ "[1;38;2;" ++ color ++ "m" ++ utf8 glyph)%string
  | DrawDim row col color glyph =>
      (ESC ++ "[" ++ itoa row ++ ";" ++ itoa col ++ "H"
           ++ ESC ++ "[2;38;2;" ++ color ++ "m" ++ utf8 glyph)%string
  | Erase row col =>
      (ESC ++ "[0m" ++ ESC ++ "[" ++ itoa row ++ ";" ++ itoa col ++ "H ")%string
  end.

Definition is_erase (i : Instr) : bool :=
  match i with Erase _ _ => true | _ => false end.

(** ** The effects of a frame: random draws, buffered output, panics *)

Record World : Type := mkWorld { rng : Rand; written : list Instr }.

(** A computation ends with a value or a panic; either way the world it
    leaves behind is known (what was written before a panic stays in the
    buffer). *)
Definition M (A : Type) : Type := World -> result A * World.

Definition ret {A : Type} (a : A) : M A := fun w => (Ok a, w).

Definition bind {A B : Type} (m : M A) (k : A -> M B) : M B :=
  fun w => match m w with
           | (Ok a, w') => k a w'
           | (Panic msg, w') => (Panic msg, w')
           end.

Definition panic {A : Type} (msg : string) : M A := fun w => (Panic msg, w).

Notation "x <- m ;; k" := (bind m (fun x => k))
  (at level 61, m at next level, right associativity).
Notation "m ;;; k" := (bind m (fun _ => k))
  (at level 61, right associativity).

Definition randIntn (n : Z) : M Z :=
  fun w => match Intn n (rng w) with
           | Ok (v, r) => (Ok v, mkWorld r (written w))
           | Panic msg => (Panic msg, w)
           end.

Definition emit (i : Instr) : M unit :=
  fun w => (Ok tt, mkWorld (rng w) (written w ++ [i])).

(** [a % b] with the run-time check of the divisor. *)
Definition checked_rem (a b : Z) : M Z :=
  if b =? 0 then panic "integer divide by zero" else ret (rem a b).

(** ** make

    [make([]T, n)] panics with "makeslice: len out of range" when [n] is
    negative or the slice would be larger than the allocation limit of
    the runtime, [maxAlloc] (2^48 bytes on linux/amd64 and arm64).  Below
    that limit the runtime still needs the memory: when the system does
    not grant it the program dies with the fatal error "runtime: out of
    memory", recorded here as an outcome of the same kind as a panic.
    How many bytes the system grants is a parameter of the model, [mem].
    A [column] takes 48 bytes (a bool, four ints and a rune, 8-byte
    aligned), a [string] header 16. *)

Definition maxAlloc : Z := 2 ^ 48.
Definition sizeof_column : Z := 48.
Definition sizeof_string : Z := 16.

Definition makeslice (mem elemSize n : Z) : result unit :=
  if (n <? 0) || (elemSize * n >? maxAlloc) then
    Panic "makeslice: len out of range"
  else if elemSize * n >? Z.max mem 0 then Panic "runtime: out of memory"
  else Ok tt.

(** The slice of [n] elements can be made. *)
Definition allocatable (mem elemSize n : Z) : Prop :=
  0 <= n /\ elemSize * n <= maxAlloc /\ elemSize * n <= mem.

(** ** initColumns *)

Fixpoint sampleColumns (count : nat) (height rainbowLen : Z)
  : M (list column) :=
  match count with
  | O => ret []
  | S count' =>
      g <- randIntn 10 ;;
      l <- randIntn (add (quot height 2) 1) ;;
      c <- randIntn rainbowLen ;;
      rest <- sampleColumns count' height rainbowLen ;;
      ret (mkColumn false 0 (add g 5) (add l 3) c 0 :: rest)
  end.

Definition initColumns (mem count height rainbowLen : Z) : M (list column) :=
  let rainbowLen := if rainbowLen =? 0 then 1 else rainbowLen in
  match makeslice mem sizeof_column count with
  | Panic msg => panic msg
  | Ok _ => sampleColumns (Z.to_nat count) height rainbowLen
  end.

(** ** drawColumnFrame *)

Definition drawColumnFrame (idx : Z) (col : column) (height : Z)
    (rainbowTable : list string) : M column :=
  if negb (active col) && (gap col >? 0) then
    ret (mkColumn (active col) (head col) (sub (gap col) 1) (length col)
                  (colorOffset col) (lastChar col))
  else
    let col :=
      if active col then col
      else mkColumn true 1 (gap col) (length col) (colorOffset col)
                    (lastChar col) in
    let head_ := head col in
    let length_ := length col in
    let colorOffset_ := colorOffset col in
    let prevChar := lastChar col in
    newChar <-
      (if (head_ >=? 1) && (head_ <=? height) then
         k <- randIntn (len katakanaChars) ;;
         let char := nth (Z.to_nat k) katakanaChars 0 in
         let color := rainbowColor rainbowTable (add head_ colorOffset_) in
         emit (DrawBold head_ (add idx 1) color char) ;;;
         ret char
       else ret prevChar) ;;
    let trailPos := sub head_ 1 in
    (if (trailPos >=? 1) && (trailPos <=? height) && negb (prevChar =? 0) then
       let color := rainbowColor rainbowTable (add trailPos colorOffset_) in
       emit (DrawDim trailPos (add idx 1) color prevChar)
     else ret tt) ;;;
    let erasePos := sub head_ length_ in
    (if (erasePos >=? 1) && (erasePos <=? height) then
       emit (Erase erasePos (add idx 1))
     else ret tt) ;;;
    if head_ >? add height length_ then
      g <- randIntn 10 ;;
      l <- randIntn (add (quot height 2) 1) ;;
      c <- randIntn (len rainbowTable) ;;
      off <- checked_rem (add colorOffset_ c) (len rainbowTable) ;;
      ret (mkColumn false 0 (add g 5) (add l 3) off 0)
    else
      ret (mkColumn true (add head_ 1) (gap col) length_ colorOffset_ newChar).

(** One tick of the loop in [main]: every column advanced once, in order. *)
Fixpoint drawColumns (idx : Z) (columns : list column) (height : Z)
    (rainbowTable : list string) : M (list column) :=
  match columns with
  | [] => ret []
  | col :: rest =>
      col' <- drawColumnFrame idx col height rainbowTable ;;
      rest' <- drawColumns (add idx 1) rest height rainbowTable ;;
      ret (col' :: rest')
  end.

(** ** parseArguments *)

Record config : Type := mkConfig { speed : Z; density : Z }.

Definition defaultSpeed : Z := 5.
Definition defaultDensity : Z := 80.

(** [strconv.Atoi] belongs to Go's library, not to the repository.  It is
    modelled after its documentation: an optional sign, then one or more
    decimal digits, and a value that fits [int]; anything else is an
    error ([None]). *)
Definition digit_of (c : ascii) : option Z :=
  let n := Z.of_nat (nat_of_ascii c) in
  if (48 <=? n) && (n <=? 57) then Some (n - 48) else None.

Fixpoint digits (s : string) (acc : Z) : option Z :=
  match s with
  | EmptyString => Some acc
  | String c s' =>
      match digit_of c with
      | Some d => digits s' (acc * 10 + d)
      | None => None
      end
  end.

Definition Atoi (s : string) : option Z :=
  match s with
  | EmptyString => None
  | String c rest =>
      let neg := Ascii.eqb c "-" in
      let body := if neg || Ascii.eqb c "+" then rest else s in
      match body with
      | EmptyString => None
      | _ =>
          match digits body 0 with
          | None => None
          | Some n =>
              let v := if neg then - n else n in
              if (min_int <=? v) && (v <=? max_int) then Some v else None
          end
      end
  end.

(** The loop of [parseArguments] over the arguments not yet consumed.
    The result is the triple the Go function returns: the configuration,
    the help flag, and the error ([None] for [nil]). *)
Fixpoint parseLoop (cfg : config) (args : list string)
  : config * bool * option string :=
  match args with
  | [] => (cfg, false, None)
  | arg :: rest =>
      if String.eqb arg "-h" || String.eqb arg "--help" then
        (cfg, true, None)
      else if String.eqb arg "-s" || String.eqb arg "--speed" then
        match rest with
        | [] => (cfg, false, Some ("missing value for " ++ arg)%string)
        | v :: rest' =>
            match Atoi v with
            | Some value =>
                if (value <? 1) || (value >? 10) then
                  (cfg, false,
                   Some "speed must be an integer between 1 and 10"%string)
                else parseLoop (mkConfig value (density cfg)) rest'
            | None =>
                (cfg, false,
                 Some "speed must be an integer between 1 and 10"%string)
            end
        end
      else if String.eqb arg "-d" || String.eqb arg "--density" then
        match rest with
        | [] => (cfg, false, Some ("missing value for " ++ arg)%string)
        | v :: rest' =>
            match Atoi v with
            | Some value =>
                if (value <? 1) || (value >? 100) then
                  (cfg, false,
                   Some "density must be an integer between 1 and 100"%string)
                else parseLoop (mkConfig (speed cfg) value) rest'
            | None =>
                (cfg, false,
                 Some "density must be an integer between 1 and 100"%string)
            end
        end
      else (cfg, false, Some ("invalid option: " ++ arg)%string)
  end.

Definition parseArguments (args : list string)
  : config * bool * option string :=
  parseLoop (mkConfig defaultSpeed defaultDensity) args.

(** The two validation errors. *)
Definition speed_error : option string :=
  Some "speed must be an integer between 1 and 10"%string.
Definition density_error : option string :=
  Some "density must be an integer between 1 and 100"%string.

Definition cfg_of (r : config * bool * option string) : config := fst (fst r).
Definition help_of (r : config * bool * option string) : bool := snd (fst r).
Definition err_of (r : config * bool * option string) : option string := snd r.

Definition is_speed_flag (s : string) : bool :=
  String.eqb s "-s" || String.eqb s "--speed".
Definition is_density_flag (s : string) : bool :=
  String.eqb s "-d" || String.eqb s "--density".

(** A value the parser refuses for a flag whose range is [1..hi]. *)
Definition bad_value (hi : Z) (v : string) : Prop :=
  match Atoi v with
  | None => True
  | Some n => n < 1 \/ hi < n
  end.

(** ** float64

    Go's [float64] is IEEE 754 binary64, and so is Rocq's primitive
    [float]: [*], [+] and [/] round to nearest, ties to even.  Every
    operation of the source is rounded on its own, as the gc compiler
    does on amd64 (at the default GOAMD64=v1; a build that fuses
    [x*y + z] into one rounding is outside this model).  [math.Sin] is
    library code: the functions below take it as the parameter [Sin]. *)

(** [math.Pi], the float64 nearest to pi. *)
Definition math_Pi : float := 0x1.921fb54442d18p+1%float.

(** [float64(i)] of an int: the nearest float64, ties to even. *)
Definition float64_of_int (i : Z) : float :=
  SF2Prim (binary_normalize prec emax i 0 false).

(** [int(x)] of a float64: the fraction is discarded.  For a value that
    is no int (not a number, an infinity, or outside [-2^63 .. 2^63-1])
    the language leaves the result to the implementation; amd64 gives
    the minimum int. *)
Definition int_of_float (x : float) : Z :=
  match Prim2SF x with
  | S754_zero _ => 0
  | S754_finite s m e =>
      let q := if 0 <=? e then Z.pos m * 2 ^ e
               else Z.quot (Z.pos m) (2 ^ (- e)) in
      let n := if s then - q else q in
      if (min_int <=? n) && (n <=? max_int) then n else min_int
  | S754_infinity _ | S754_nan => min_int
  end.

(** The real number a finite float64 stands for. *)
Definition float_value (x : float) : option R :=
  match Prim2SF x with
  | S754_zero _ => Some 0%R
  | S754_finite s m e =>
      let a := if 0 <=? e then IZR (Z.pos m * 2 ^ e)
               else (IZR (Z.pos m) / IZR (2 ^ (- e)))%R in
      Some (if s then - a else a)%R
  | S754_infinity _ | S754_nan => None
  end.

(** Truncation toward zero of a real number. *)
Definition truncate (x : R) : Z :=
  if Rle_dec 0 x then Zfloor x else Zceil x.

(** Rounding to the nearest integer (halves away from zero), the
    specification's [round]. *)
Definition round_nearest (x : R) : Z :=
  if Rle_dec 0 x then Zfloor (x + / 2) else Zceil (x - / 2).

(** ** buildRainbowTable *)

(** [twoPi := 2 * math.Pi] *)
Definition twoPi : float := (2 * math_Pi)%float.

Definition Sprintf_rgb (r g b : Z) : string :=
  (itoa r ++ ";" ++ itoa g ++ ";" ++ itoa b)%string.

(** The three floats of round [i] of the loop, before [int(...)]. *)
Definition redChannel (Sin : float -> float) (freq : float) (i : Z) : float :=
  (Sin (freq * float64_of_int i) * 127 + 128)%float.
Definition greenChannel (Sin : float -> float) (freq : float) (i : Z) : float :=
  (Sin (freq * float64_of_int i + twoPi / 3) * 127 + 128)%float.
Definition blueChannel (Sin : float -> float) (freq : float) (i : Z) : float :=
  (Sin (freq * float64_of_int i + 2 * twoPi / 3) * 127 + 128)%float.

Definition rainbowEntry (Sin : float -> float) (freq : float) (i : Z) : string :=
  let r := int_of_float (redChannel Sin freq i) in
  let g := int_of_float (greenChannel Sin freq i) in
  let b := int_of_float (blueChannel Sin freq i) in
  Sprintf_rgb r g b.

(** The loop [for i := 0; i < cycle; i++], from [i] with [n] rounds left. *)
Fixpoint fillTable (Sin : float -> float) (freq : float) (i : Z) (n : nat)
  : list string :=
  match n with
  | O => []
  | S n' => rainbowEntry Sin freq i :: fillTable Sin freq (i + 1) n'
  end.

Definition buildRainbowTable (mem : Z) (Sin : float -> float) (freq : float)
    (cycle : Z) : result (list string) :=
  match makeslice mem sizeof_string cycle with
  | Panic msg => Panic msg
  | Ok _ => Ok (fillTable Sin freq 0 (Z.to_nat cycle))
  end.

(** What the specification asks of entry [i], in its own words: every
    channel the real number [sin(..)*127+128] rounded to the nearest
    integer. *)
Definition rainbowEntry_spec (freq : R) (i : Z) : string :=
  Sprintf_rgb
    (round_nearest (sin (freq * IZR i) * 127 + 128)%R)
    (round_nearest (sin (freq * IZR i + 2 * PI / 3) * 127 + 128)%R)
    (round_nearest (sin (freq * IZR i + 4 * PI / 3) * 127 + 128)%R).

(** [rainbowFreq = 0.1] as a float64, and [rainbowCycle]. *)
Definition rainbowFreq : float := 0x1.999999999999ap-4%float.
Definition rainbowCycle : Z := 63.

(** The floats within [n] units in the last place of [c]. *)
Fixpoint floats_above (n : nat) (c : float) : list float :=
  match n with
  | O => []
  | S n' => next_up c :: floats_above n' (next_up c)
  end.

Fixpoint floats_below (n : nat) (c : float) : list float :=
  match n with
  | O => []
  | S n' => next_down c :: floats_below n' (next_down c)
  end.

Definition floats_near (n : nat) (c : float) : list float :=
  floats_below n c ++ c :: floats_above n c.

(** The float64 nearest to the sine of the float64 [twoPi/3] and of the
    float64 [2*twoPi/3]: 0.8660254037844387 and -0.8660254037844384. *)
Definition sinTwoPi3 : float := 0x1.bb67ae8584cabp-1%float.
Definition sinFourPi3 : float := (-0x1.bb67ae8584ca8p-1)%float.

(** A sine for the three arguments of entry 0: [Sin 0 = 0], and the
    nearest float64 at [twoPi/3] and [2*twoPi/3]; not a number
    elsewhere. *)
Definition sineOfEntry0 (x : float) : float :=
  if (x =? 0)%float then x
  else if (x =? twoPi / 3)%float then sinTwoPi3
  else if (x =? 2 * twoPi / 3)%float then sinFourPi3
  else nan.

(** ** Views of one frame, used to state what [drawColumnFrame] does *)

(** The column a frame works on: an inactive column whose countdown is
    over is activated with [head = 1] before anything is drawn. *)
Definition frameColumn (col : column) : column :=
  if active col then col
  else mkColumn true 1 (gap col) (length col) (colorOffset col) (lastChar col).

(** The call only counts the gap down. *)
Definition countingDown (col : column) : bool :=
  negb (active col) && (gap col >? 0).

Definition inWindow (height row : Z) : bool :=
  (row >=? 1) && (row <=? height).

(** The glyph left in [lastChar] by the drawing part of a frame. *)
Definition frameGlyph (fc : column) (height : Z) (r : Rand) : rune :=
  if inWindow height (head fc) then
    nth (Z.to_nat (hd 0 r mod len katakanaChars)) katakanaChars 0
  else lastChar fc.

Definition frameRng (fc : column) (height : Z) (r : Rand) : Rand :=
  if inWindow height (head fc) then tl r else r.

(** The instructions of the drawing part, in the order they are written. *)
Definition frameInstrs (idx : Z) (fc : column) (height : Z)
    (table : list string) (r : Rand) : list Instr :=
  (if inWindow height (head fc) then
     [DrawBold (head fc) (add idx 1)
        (rainbowColor table (add (head fc) (colorOffset fc)))
        (frameGlyph fc height r)]
   else []) ++
  (if inWindow height (sub (head fc) 1) && negb (lastChar fc =? 0) then
     [DrawDim (sub (head fc) 1) (add idx 1)
        (rainbowColor table (add (sub (head fc) 1) (colorOffset fc)))
        (lastChar fc)]
   else []) ++
  (if inWindow height (sub (head fc) (length fc)) then
     [Erase (sub (head fc) (length fc)) (add idx 1)]
   else []).

(** The Falling -> Gap block: the column is resampled. *)
Definition resample (height colorOffset_ : Z) (table : list string)
  : M column :=
  g <- randIntn 10 ;;
  l <- randIntn (add (quot height 2) 1) ;;
  c <- randIntn (len table) ;;
  off <- checked_rem (add colorOffset_ c) (len table) ;;
  ret (mkColumn false 0 (add g 5) (add l 3) off 0).

(** The rows an instruction list erases. *)
Definition erasedRows (l : list Instr) : list Z :=
  flat_map (fun i => match i with Erase row _ => [row] | _ => [] end) l.

(** ** The column invariants of the data model *)

(** What every column handed to [drawColumnFrame] satisfies: the head is
    a row number (0 while waiting in the gap), the trail length is
    positive. *)
Definition column_ok (col : column) : Prop :=
  0 <= head col <= max_int /\
  1 <= length col <= max_int /\
  (active col = false -> head col = 0).

(** The invariant [initColumns] establishes and a frame preserves on a
    terminal of [height] rows. *)
Definition column_inv (height : Z) (col : column) : Prop :=
  3 <= length col <= Z.quot height 2 + 3 /\
  0 <= gap col < 15 /\
  (active col = true -> 1 <= head col <= height + length col + 1) /\
  (active col = false -> head col = 0).

(** The ranges the sampled [gap] and [length] fall in. *)
Definition sampled_ok (height : Z) (c : column) : Prop :=
  5 <= gap c < 15 /\ 3 <= length c < Z.quot height 2 + 4.

(** ** Sample data for the concrete instances *)

Definition sampleTable : list string :=
  ["128;237;18"; "140;230;12"; "153;222;7"]%string.

Definition sampleWorld : World := mkWorld [12; 19; 26; 33; 40; 47; 54] [].

(** One gibibyte the system grants. *)
Definition sampleMemory : Z := 2 ^ 30.

(** ** What an instruction addresses *)

Definition instr_row (i : Instr) : Z :=
  match i with
  | DrawBold row _ _ _ => row
  | DrawDim row _ _ _ => row
  | Erase row _ => row
  end.

Definition instr_col (i : Instr) : Z :=
  match i with
  | DrawBold _ col _ _ => col
  | DrawDim _ col _ _ => col
  | Erase _ col => col
  end.

(** The glyphs an instruction list puts on the screen. *)
Definition drawnGlyphs (l : list Instr) : list rune :=
  flat_map (fun i => match i with
                     | DrawBold _ _ _ g => [g]
                     | DrawDim _ _ _ g => [g]
                     | Erase _ _ => []
                     end) l.

(** [lastChar] holds no glyph or a glyph of the character set. *)
Definition glyph_ok (col : column) : Prop :=
  lastChar col = 0 \/ In (lastChar col) katakanaChars.

(** The call reaches the Falling -> Gap block. *)
Definition resets (col : column) (height : Z) : bool :=
  negb (countingDown col) &&
  (head (frameColumn col) >? add height (length (frameColumn col))).

(** ** Frames in sequence *)

(** [n] rounds of the frame loop of [main] (the [for idx := range
    columns] of every tick), without the resize and interrupt checks. *)
Fixpoint runFrames (n : nat) (columns : list column) (height : Z)
    (rainbowTable : list string) : M (list column) :=
  match n with
  | O => ret columns
  | S n' =>
      columns' <- drawColumns 0 columns height rainbowTable ;;
      runFrames n' columns' height rainbowTable
  end.

(** One successful call on a column, with what it appended to the
    buffer; the world it ran in is left open, since the other columns
    draw from the same random source in between. *)
Definition frameStep (idx height : Z) (table : list string)
    (c : column) (new : list Instr) (c' : column) : Prop :=
  exists w w',
    drawColumnFrame idx c height table w = (Ok c', w') /\
    written w' = written w ++ new.

(** [n] successive calls on one column. *)
Fixpoint frameSteps (n : nat) (idx height : Z) (table : list string)
    (c : column) (new : list Instr) (c' : column) : Prop :=
  match n with
  | O => c' = c /\ new = []
  | S n' =>
      exists c1 new1 new2,
        frameStep idx height table c new1 c1 /\
        frameSteps n' idx height table c1 new2 c' /\
        new = new1 ++ new2
  end.

(** ** The screen the instructions act on *)

(** A cell holds a glyph or is blank. *)
Definition Screen : Type := Z -> Z -> option rune.

Definition blank : Screen := fun _ _ => None.

(** The effect of one instruction: the cursor is moved to (row, col) and
    one character is printed there, a glyph or a space. *)
Definition paint (scr : Screen) (i : Instr) : Screen :=
  fun row col =>
    if (row =? instr_row i) && (col =? instr_col i) then
      match i with
      | DrawBold _ _ _ g => Some g
      | DrawDim _ _ _ g => Some g
      | Erase _ _ => None
      end
    else scr row col.

Definition paintAll (scr : Screen) (l : list Instr) : Screen :=
  fold_left paint l scr.

(** The rows lit in the terminal column of [idx] are the trail window of
    the column: the rows [head-length .. head-1] that are on the screen
    while the stream falls, none while the column waits in the gap. *)
Definition trail_window (idx height : Z) (c : column) (scr : Screen) : Prop :=
  forall row,
    scr row (idx + 1) <> None <->
    (active c = true /\
     1 <= row <= height /\ head c - length c <= row <= head c - 1).

(** Every column of the list, at its terminal column, shows its trail
    window; [idx] is the index of the first column of the list. *)
Definition screen_inv (idx height : Z) (columns : list column)
    (scr : Screen) : Prop :=
  forall (k : nat) (c : column),
    nth_error columns k = Some c ->
    trail_window (idx + Z.of_nat k) height c scr.

(** ** getTerminalSize *)

Module Tty.

(** The struct [TIOCGWINSZ] fills; the fields are [uint16]. *)
Record winsize : Type := mkWinsize {
  row : Z;
  col : Z;
  xpixel : Z;
  ypixel : Z
}.

End Tty.

(** What the program asks of the operating system: the outcome of the
    [TIOCGWINSZ] ioctl on a file descriptor (the errno and the struct as
    the kernel left it) and the environment. *)
Record OS : Type := mkOS {
  ioctl_TIOCGWINSZ : Z -> Z * Tty.winsize;
  Getenv : string -> string
}.

Definition stdoutFd : Z := 1.
Definition stdinFd : Z := 0.

Definition ioctlGetWinsize (os : OS) (fd : Z) : Z * Z * bool :=
  let (errno, ws) := ioctl_TIOCGWINSZ os fd in
  if (errno =? 0) && (Tty.col ws >? 0) && (Tty.row ws >? 0) then
    (Tty.col ws, Tty.row ws, true)
  else (0, 0, false).

(** [LINES] or [COLUMNS]: used when it parses to a positive number. *)
Definition envDimension (value : string) (fallback : Z) : Z :=
  if String.eqb value "" then fallback
  else match Atoi value with
       | Some v => if v >? 0 then v else fallback
       | None => fallback
       end.

Definition getTerminalSize (os : OS) : Z * Z :=
  match ioctlGetWinsize os stdoutFd with
  | (width, height, true) => (width, height)
  | _ =>
      match ioctlGetWinsize os stdinFd with
      | (width, height, true) => (width, height)
      | _ =>
          let width := envDimension (Getenv os "COLUMNS") 80 in
          let height := envDimension (Getenv os "LINES") 24 in
          (width, height)
      end
  end.

(** The ioctl leaves [uint16] values. *)
Definition tty_typed (os : OS) : Prop :=
  forall fd,
    0 <= Tty.row (snd (ioctl_TIOCGWINSZ os fd)) <= 65535 /\
    0 <= Tty.col (snd (ioctl_TIOCGWINSZ os fd)) <= 65535.

(** The geometry block of [main], run at start-up and again after a
    resize: query, clamp, count the columns, create them. *)
Definition layout (mem : Z) (os : OS) (cfg : config)
    (rainbowTable : list string) : M (Z * Z * list column) :=
  let (width, height) := getTerminalSize os in
  let (width, height) := clampDimensions width height in
  let numColumns := calculateColumnCount width (density cfg) in
  columns <- initColumns mem numColumns height (len rainbowTable) ;;
  ret (width, height, columns).

(** A terminal without a tty, and one of 120 x 40. *)
Definition noTty (env : string -> string) : OS :=
  mkOS (fun _ => (25, Tty.mkWinsize 0 0 0 0)) env.

Definition emptyEnv : string -> string := fun _ => ""%string.

Definition tty120x40 : OS :=
  mkOS (fun _ => (0, Tty.mkWinsize 40 120 0 0)) emptyEnv.

(** What [initColumns] leaves in every column it creates. *)
Definition fresh_column (height rainbowLen : Z) (c : column) : Prop :=
  active c = false /\ head c = 0 /\ lastChar c = 0 /\
  sampled_ok height c /\ 0 <= colorOffset c < Z.max 1 rainbowLen.

(** A configuration the parser may hand to [main]. *)
Definition valid_config (cfg : config) : Prop :=
  1 <= speed cfg <= 10 /\ 1 <= density cfg <= 100.

Definition is_help_flag (s : string) : bool :=
  String.eqb s "-h" || String.eqb s "--help".

(** * Theorems *)

Lemma wrap_id (z : Z) : in_int z -> wrap z = z.
Proof.
  unfold in_int, wrap, min_int, max_int. intros H.
  rewrite Z.mod_small; lia.
Qed.

Lemma wrap_in_int (z : Z) : in_int (wrap z).
Proof.
  unfold in_int, wrap, min_int, max_int.
  pose proof (Z.mod_pos_bound (z + 2 ^ 63) (2 ^ 64) ltac:(lia)). lia.
Qed.

Ltac int_range := unfold in_int, min_int, max_int in *.

(** Every value below the bound is drawn by some source. *)
Lemma Intn_onto (n v : Z) :
  0 <= v < n -> exists r r', Intn n r = Ok (v, r').
Proof.
  intros Hv. exists [v], []. unfold Intn.
  destruct (Z.leb_spec n 0); [lia | ].
  simpl. rewrite Z.mod_small by lia. reflexivity.
Qed.

(** The heights [main] works with are at least [minTermHeight]. *)
Lemma clampDimensions_min (width height : Z) :
  minTermWidth <= fst (clampDimensions width height) /\
  minTermHeight <= snd (clampDimensions width height).
Proof.
  unfold clampDimensions, minTermWidth, minTermHeight. simpl.
  destruct (Z.ltb_spec width 20); destruct (Z.ltb_spec height 10); lia.
Qed.

(** Go's [%] with a positive divisor: the remainder has the sign of the
    dividend. *)
Lemma rem_pos_divisor (a b : Z) :
  0 < b ->
  (0 <= a -> 0 <= Z.rem a b < b) /\ (a < 0 -> - b < Z.rem a b <= 0).
Proof.
  intros Hb. split; intros Ha.
  - apply Z.rem_bound_pos; lia.
  - pose proof (Z.rem_bound_pos (- a) b ltac:(lia) Hb) as H.
    rewrite Z.rem_opp_l' in H. lia.
Qed.

Lemma Z_quot_100_small (x : Z) : in_int x -> in_int (Z.quot x 100).
Proof.
  int_range. intros H.
  pose proof (Z.quot_rem' x 100).
  destruct (rem_pos_divisor x 100 ltac:(lia)) as [Hp Hn].
  destruct (Z_le_gt_dec 0 x) as [Hx | Hx].
  - specialize (Hp Hx). lia.
  - specialize (Hn ltac:(lia)). lia.
Qed.

(** ** calculateFrameDelay *)

Lemma calculateFrameDelay_exact (s : Z) :
  safe_speed s ->
  calculateFrameDelay s = Z.max 20 (160 - s * 12) * Millisecond.
Proof.
  unfold safe_speed, calculateFrameDelay, sub, mul, Millisecond.
  intros [H12 Hns].
  rewrite (wrap_id (s * 12)) by exact H12.
  assert (Hms : in_int (160 - s * 12))
    by (unfold Millisecond in Hns; int_range; lia).
  rewrite (wrap_id (160 - s * 12)) by exact Hms.
  destruct (Z.ltb_spec (160 - s * 12) 20) as [Hlt | Hge].
  - rewrite Z.max_l by lia. apply wrap_id. int_range. lia.
  - rewrite Z.max_r by lia. rewrite Z.max_r in Hns by lia.
    apply wrap_id. int_range. unfold Millisecond in Hns. lia.
Qed.

(** C4 (amended). On every speed whose arithmetic stays in range the
    delay is [max(20, 160 - speed*12)] milliseconds and is non-increasing
    in the speed; it is 148ms at speed 1, 40ms at speed 10, 28ms at
    speed 11, and 20ms from speed 12 on, that is whenever the formula
    falls below 20. *)
Theorem calculateFrameDelay_spec (s1 s2 : Z) :
  safe_speed s1 -> safe_speed s2 ->
  calculateFrameDelay s1 = Z.max 20 (160 - s1 * 12) * Millisecond /\
  (s1 <= s2 -> calculateFrameDelay s2 <= calculateFrameDelay s1) /\
  calculateFrameDelay 1 = 148 * Millisecond /\
  calculateFrameDelay 10 = 40 * Millisecond /\
  calculateFrameDelay 11 = 28 * Millisecond /\
  (160 - s1 * 12 < 20 -> calculateFrameDelay s1 = 20 * Millisecond) /\
  (12 <= s1 -> calculateFrameDelay s1 = 20 * Millisecond).
Proof.
  intros H1 H2.
  pose proof (calculateFrameDelay_exact s1 H1) as E1.
  pose proof (calculateFrameDelay_exact s2 H2) as E2.
  repeat split; try reflexivity.
  - exact E1.
  - intros Hle. rewrite E1, E2. unfold Millisecond. lia.
  - intros Hlt. rewrite E1. rewrite Z.max_l by lia. reflexivity.
  - intros Hge. rewrite E1. rewrite Z.max_l by lia. reflexivity.
Qed.

Lemma calculateFrameDelay_spec_witness :
  calculateFrameDelay 3 = 124 * Millisecond /\
  calculateFrameDelay 40 <= calculateFrameDelay 3 /\
  calculateFrameDelay 40 = 20 * Millisecond.
Proof.
  assert (S3 : safe_speed 3) by (unfold safe_speed, Millisecond; int_range; lia).
  assert (S40 : safe_speed 40) by (unfold safe_speed, Millisecond; int_range; lia).
  destruct (calculateFrameDelay_spec 3 40 S3 S40) as [E [Mono _]].
  destruct (calculateFrameDelay_spec 40 3 S40 S3) as [_ [_ [_ [_ [_ [_ Clamp]]]]]].
  split; [exact E | split; [apply Mono; lia | apply Clamp; lia]].
Defined.

(** C4, as stated, fails: speed 11 gives 28ms and not 20ms; and on the
    64-bit [int] the product [speed*12] wraps at [2^62], where the delay
    is 160ms although the formula is far below 20, so that the delay at
    [2^62] exceeds the delay at 1. *)
Lemma calculateFrameDelay_counterexample :
  calculateFrameDelay 11 = 28 * Millisecond /\
  calculateFrameDelay 11 <> 20 * Millisecond /\
  in_int (2 ^ 62) /\
  calculateFrameDelay (2 ^ 62) = 160 * Millisecond /\
  Z.max 20 (160 - 2 ^ 62 * 12) = 20 /\
  calculateFrameDelay 1 < calculateFrameDelay (2 ^ 62).
Proof.
  repeat split; try reflexivity; vm_compute; congruence.
Qed.

(** ** calculateColumnCount *)

Lemma clamp_quot_div (x width : Z) :
  clamp (Z.quot x 100) 1 width = clamp (x / 100) 1 width.
Proof.
  unfold clamp.
  destruct (Z_le_gt_dec 0 x) as [Hx | Hx].
  - rewrite Z.quot_div_nonneg by lia. reflexivity.
  - assert (Hq : Z.quot x 100 <= 0).
    { pose proof (Z.quot_rem' x 100).
      destruct (rem_pos_divisor x 100 ltac:(lia)) as [_ Hn].
      specialize (Hn ltac:(lia)). lia. }
    assert (Hd : x / 100 < 0) by (apply Z.div_lt_upper_bound; lia).
    rewrite !Z.max_r by lia. reflexivity.
Qed.

Lemma calculateColumnCount_clamp (width density : Z) :
  calculateColumnCount width density =
  clamp (Z.quot (mul width density) 100) 1 width.
Proof.
  unfold calculateColumnCount, clamp, quot.
  rewrite (wrap_id (Z.quot _ 100)) by (apply Z_quot_100_small, wrap_in_int).
  set (c := Z.quot (mul width density) 100).
  destruct (Z.ltb_spec c 1) as [Hc | Hc].
  - rewrite Z.max_r by lia.
    destruct (1 >? width) eqn:Hw; [apply Z.gtb_lt in Hw | ]; lia.
  - rewrite Z.max_l by lia.
    destruct (c >? width) eqn:Hw; [apply Z.gtb_lt in Hw | ]; lia.
Qed.

(** C7 (amended). Whenever the product [width*density] fits the 64-bit
    [int], the column count is [clamp(width*density/100, 1, width)] over
    the exact integers; [calculateColumnCount(80,80) = 64]; and for every
    [width >= 1] and every density the result lies in [[1, width]]. *)
Theorem calculateColumnCount_spec (width density : Z) :
  (in_int (width * density) ->
   calculateColumnCount width density = columnCount_spec width density) /\
  calculateColumnCount 80 80 = 64 /\
  (1 <= width -> 1 <= calculateColumnCount width density <= width).
Proof.
  split; [ | split ].
  - intros Hfit. rewrite calculateColumnCount_clamp.
    unfold mul, columnCount_spec. rewrite wrap_id by exact Hfit.
    apply clamp_quot_div.
  - reflexivity.
  - intros Hw. rewrite calculateColumnCount_clamp. unfold clamp. lia.
Qed.

Lemma calculateColumnCount_spec_witness :
  calculateColumnCount 213 37 = columnCount_spec 213 37 /\
  1 <= calculateColumnCount 213 37 <= 213.
Proof.
  destruct (calculateColumnCount_spec 213 37) as [Heq [_ Hin]].
  split; [apply Heq; int_range; lia | apply Hin; lia].
Defined.

(** C7, as stated, fails where the product wraps: a terminal width of
    [2^62] at the default density 80 yields one column, not the clamp
    of the exact quotient. *)
Lemma calculateColumnCount_counterexample :
  in_int (2 ^ 62) /\
  calculateColumnCount (2 ^ 62) 80 = 1 /\
  columnCount_spec (2 ^ 62) 80 = 3689348814741910323.
Proof.
  repeat split; vm_compute; congruence.
Qed.

(** ** rainbowColor *)

Lemma len_pos {A : Type} (l : list A) : l <> [] -> 0 < len l.
Proof.
  destruct l as [ | a l]; [congruence | ].
  intros _. unfold len. simpl List.length. lia.
Qed.

(** The index computed by [rainbowColor] is the mathematical residue. *)
Lemma wrapped_index (p C : Z) :
  0 < C ->
  (if Z.rem p C <? 0 then Z.rem p C + C else Z.rem p C) = p mod C.
Proof.
  intros HC.
  destruct (rem_pos_divisor p C HC) as [Hp Hn].
  pose proof (Z.quot_rem' p C) as Hq.
  destruct (Z.ltb_spec (Z.rem p C) 0) as [Hneg | Hnn].
  - assert (p < 0) by (destruct (Z_le_gt_dec 0 p); [specialize (Hp ltac:(lia)) |]; lia).
    specialize (Hn ltac:(lia)).
    apply (Z.mod_unique _ _ (Z.quot p C - 1)); [left; lia | lia].
  - assert (0 <= Z.rem p C < C).
    { destruct (Z_le_gt_dec 0 p); [apply Hp; lia | specialize (Hn ltac:(lia)); lia]. }
    apply (Z.mod_unique _ _ (Z.quot p C)); [left; lia | lia].
Qed.

Lemma rainbowColor_mod (table : list string) (p : Z) :
  table <> [] ->
  rainbowColor table p = nth (Z.to_nat (p mod len table)) table ""%string.
Proof.
  intros Hne. pose proof (len_pos table Hne) as HC.
  unfold rainbowColor, rem.
  destruct (Z.eqb_spec (len table) 0) as [E | _]; [lia | ].
  rewrite wrapped_index by exact HC. reflexivity.
Qed.

(** C6. On a non-empty table of length [C], [rainbowColor(table, p)] is
    the entry at [((p mod C) + C) mod C], whether [mod] is the truncating
    remainder of the program or the mathematical residue; that index lies
    in [[0, C)]; and the lookup has period [C]. *)
Theorem rainbowColor_periodic (table : list string) (p : Z) :
  table <> [] ->
  let C := len table in
  rainbowColor table p =
    nth (Z.to_nat (Z.rem (Z.rem p C + C) C)) table ""%string /\
  rainbowColor table p =
    nth (Z.to_nat ((p mod C + C) mod C)) table ""%string /\
  0 <= (p mod C + C) mod C < C /\
  rainbowColor table (p + C) = rainbowColor table p.
Proof.
  intros Hne C. pose proof (len_pos table Hne) as HC. fold C in HC.
  assert (Hres : (p mod C + C) mod C = p mod C).
  { replace (p mod C + C) with (p mod C + 1 * C) by lia.
    rewrite Z_mod_plus_full. apply Z.mod_mod. lia. }
  assert (Hrem : Z.rem (Z.rem p C + C) C = p mod C).
  { destruct (rem_pos_divisor p C HC) as [Hp Hn].
    rewrite Z.rem_mod_nonneg; [ | | exact HC].
    - replace (Z.rem p C + C) with (Z.rem p C + 1 * C) by lia.
      rewrite Z_mod_plus_full.
      rewrite <- (wrapped_index p C HC).
      destruct (Z.ltb_spec (Z.rem p C) 0) as [Hneg | Hnn].
      + replace (Z.rem p C) with ((Z.rem p C + C) + (-1) * C) at 1 by lia.
        rewrite Z_mod_plus_full. apply Z.mod_small.
        destruct (Z_le_gt_dec 0 p); [specialize (Hp ltac:(lia)) | specialize (Hn ltac:(lia))]; lia.
      + apply Z.mod_small.
        destruct (Z_le_gt_dec 0 p); [specialize (Hp ltac:(lia)) | specialize (Hn ltac:(lia))]; lia.
    - destruct (Z_le_gt_dec 0 p); [specialize (Hp ltac:(lia)) | specialize (Hn ltac:(lia))]; lia. }
  repeat split.
  - rewrite Hrem. apply rainbowColor_mod, Hne.
  - rewrite Hres. apply rainbowColor_mod, Hne.
  - rewrite Hres. apply Z.mod_pos_bound, HC.
  - rewrite Hres. apply Z.mod_pos_bound, HC.
  - rewrite !rainbowColor_mod by exact Hne. fold C.
    replace (p + C) with (p + 1 * C) by lia.
    rewrite Z_mod_plus_full. reflexivity.
Qed.

Lemma rainbowColor_periodic_witness :
  rainbowColor sampleTable (-4 + len sampleTable) = rainbowColor sampleTable (-4).
Proof.
  destruct (rainbowColor_periodic sampleTable (-4) ltac:(discriminate))
    as [_ [_ [_ Hper]]].
  exact Hper.
Defined.

(** ** drawColumnFrame *)

(** A call on a column that is counting down changes the countdown only. *)
Lemma drawColumnFrame_countdown idx col height table w :
  countingDown col = true ->
  drawColumnFrame idx col height table w =
  (Ok (mkColumn (active col) (head col) (sub (gap col) 1) (length col)
                (colorOffset col) (lastChar col)), w).
Proof.
  unfold countingDown, drawColumnFrame. intros ->. reflexivity.
Qed.

(** Any other call draws the frame of [frameColumn col] and then either
    resamples the column or moves the head down one row. *)
Lemma drawColumnFrame_falling idx col height table w :
  countingDown col = false ->
  let fc := frameColumn col in
  let w' := mkWorld (frameRng fc height (rng w))
                    (written w ++ frameInstrs idx fc height table (rng w)) in
  drawColumnFrame idx col height table w =
  if head fc >? add height (length fc) then
    resample height (colorOffset fc) table w'
  else
    (Ok (mkColumn true (add (head fc) 1) (gap fc) (length fc)
                  (colorOffset fc) (frameGlyph fc height (rng w))), w').
Proof.
  intros Hcd fc w'. subst w'.
  unfold countingDown in Hcd. unfold drawColumnFrame. rewrite Hcd.
  fold (frameColumn col). fold fc.
  unfold frameInstrs, frameGlyph, frameRng, resample, inWindow.
  assert (Hgap : gap fc = gap col)
    by (unfold fc, frameColumn; destruct (active col); reflexivity).
  destruct w as [r out].
  unfold bind, ret, emit, randIntn, Intn; simpl.
  destruct ((head fc >=? 1) && (head fc <=? height));
    destruct ((sub (head fc) 1 >=? 1) && (sub (head fc) 1 <=? height)
              && negb (lastChar fc =? 0));
    destruct ((sub (head fc) (length fc) >=? 1)
              && (sub (head fc) (length fc) <=? height));
    simpl; rewrite ?app_nil_r, <- ?app_assoc; simpl;
    destruct (head fc >? add height (length fc)); rewrite ?Hgap; reflexivity.
Qed.

Lemma quot_2_bounds (h : Z) :
  -1 <= h -> 0 <= Z.quot h 2 /\ 2 * Z.quot h 2 <= h + 1 /\ h <= 2 * Z.quot h 2 + 1.
Proof.
  intros Hh. pose proof (Z.quot_rem' h 2).
  destruct (rem_pos_divisor h 2 ltac:(lia)) as [Hp Hn].
  destruct (Z_le_gt_dec 0 h) as [Hx | Hx].
  - specialize (Hp Hx). lia.
  - specialize (Hn ltac:(lia)). lia.
Qed.

(** The bound handed to [rand.Intn] for the length is positive, and
    exact, whenever [height >= -1]. *)
Lemma length_bound_exact (height : Z) :
  in_int height -> -1 <= height ->
  add (quot height 2) 1 = Z.quot height 2 + 1 /\ 0 < Z.quot height 2 + 1.
Proof.
  intros Hi Hh. destruct (quot_2_bounds height Hh) as [H0 [H1 H2]].
  unfold add, quot. int_range.
  rewrite (wrap_id (Z.quot height 2)) by (int_range; lia).
  rewrite wrap_id by (int_range; lia). lia.
Qed.

Lemma Intn_ok (n : Z) (r : Rand) :
  0 < n -> Intn n r = Ok (hd 0 r mod n, tl r) /\ 0 <= hd 0 r mod n < n.
Proof.
  intros Hn. unfold Intn.
  destruct (Z.leb_spec n 0); [lia | ].
  split; [reflexivity | apply Z.mod_pos_bound; lia].
Qed.

(** Resampling succeeds for every random source as soon as the terminal
    height is at least -1 and the table is not empty, and it leaves
    [gap] in [[5,15)] and [length] in [[3, height/2+3]]. *)
Lemma resample_ok (height off : Z) (table : list string) (w : World) :
  in_int height -> -1 <= height -> table <> [] ->
  exists g l c,
    0 <= g < 10 /\ 0 <= l <= Z.quot height 2 /\ 0 <= c < len table /\
    resample height off table w =
    (Ok (mkColumn false 0 (g + 5) (l + 3) (Z.rem (add off c) (len table)) 0),
     mkWorld (tl (tl (tl (rng w)))) (written w)).
Proof.
  intros Hi Hh Hne.
  destruct (length_bound_exact height Hi Hh) as [Hb Hpos].
  pose proof (len_pos table Hne) as HC.
  destruct w as [r out].
  destruct (Intn_ok 10 r ltac:(lia)) as [E1 B1].
  destruct (Intn_ok (Z.quot height 2 + 1) (tl r) Hpos) as [E2 B2].
  destruct (Intn_ok (len table) (tl (tl r)) HC) as [E3 B3].
  exists (hd 0 r mod 10), (hd 0 (tl r) mod (Z.quot height 2 + 1)),
         (hd 0 (tl (tl r)) mod len table).
  repeat split; try lia.
  unfold resample, bind, randIntn, checked_rem, ret, rem.
  cbn [rng written]. rewrite E1. cbn [rng written].
  rewrite Hb, E2. cbn [rng written]. rewrite E3.
  destruct (Z.eqb_spec (len table) 0) as [E | _]; [lia | ].
  destruct (quot_2_bounds height Hh) as [H0 [H1 H2]].
  unfold add at 1 2. rewrite !wrap_id; [reflexivity | | ]; int_range; lia.
Qed.

Lemma frameColumn_active (col : column) :
  active col = true -> frameColumn col = col.
Proof. unfold frameColumn. intros ->. reflexivity. Qed.

Lemma countingDown_active (col : column) :
  active col = true -> countingDown col = false.
Proof. unfold countingDown. intros ->. reflexivity. Qed.

(** C10. A call on a column with [active = false] and [gap > 0] returns
    the same column with [gap] one lower and leaves the world as it was:
    nothing is written (no draw, no erase) and no random number is
    drawn. *)
Theorem gap_countdown_step idx col height table w :
  active col = false -> 0 < gap col -> in_int (gap col) ->
  drawColumnFrame idx col height table w =
    (Ok (mkColumn false (head col) (gap col - 1) (length col)
                  (colorOffset col) (lastChar col)), w) /\
  written (snd (drawColumnFrame idx col height table w)) = written w.
Proof.
  intros Hact Hgap Hint.
  assert (Hcd : countingDown col = true).
  { unfold countingDown. rewrite Hact. simpl. apply Z.gtb_lt. lia. }
  rewrite (drawColumnFrame_countdown idx col height table w Hcd).
  rewrite Hact. unfold sub. rewrite wrap_id by (int_range; lia).
  split; reflexivity.
Qed.

Lemma gap_countdown_step_witness :
  drawColumnFrame 3 (mkColumn false 0 7 5 2 0) 24 sampleTable sampleWorld =
  (Ok (mkColumn false 0 6 5 2 0), sampleWorld).
Proof.
  apply (gap_countdown_step 3 (mkColumn false 0 7 5 2 0) 24 sampleTable
           sampleWorld); simpl; [reflexivity | lia | int_range; lia].
Defined.

(** C2 (amended). A call on a gap column with [gap = 0] activates it
    with [head = 1], draws that frame (the bold glyph goes to row 1 when
    the terminal has a row 1) and, unless the stream is already over
    ([1 > height+length]), leaves the column falling with [head = 2]. *)
Theorem gap_zero_activates idx col height table w :
  active col = false -> gap col = 0 ->
  in_int (height + length col) -> 1 <= height + length col ->
  exists glyph w',
    drawColumnFrame idx col height table w =
      (Ok (mkColumn true 2 0 (length col) (colorOffset col) glyph), w') /\
    (1 <= height ->
     exists rest,
       written w' =
       written w ++
         DrawBold 1 (add idx 1)
           (rainbowColor table (add 1 (colorOffset col))) glyph :: rest).
Proof.
  intros Hact Hgap Hfit Hlive.
  assert (Hcd : countingDown col = false).
  { unfold countingDown. rewrite Hact, Hgap. reflexivity. }
  pose proof (drawColumnFrame_falling idx col height table w Hcd) as E.
  cbv zeta in E. unfold frameColumn in E. rewrite Hact in E.
  cbn [head length gap colorOffset lastChar] in E.
  unfold add at 1 in E. rewrite (wrap_id (height + length col)) in E by exact Hfit.
  destruct (1 >? height + length col) eqn:Hres;
    [apply Z.gtb_lt in Hres; lia | ].
  rewrite Hgap in E. change (add 1 1) with 2 in E.
  eexists. eexists. split; [exact E | ].
  intros Hrow. cbn [written].
  unfold frameInstrs, frameGlyph, inWindow. cbn [head length colorOffset lastChar].
  destruct (Z.leb_spec 1 height) as [_ | Hbad]; [ | lia].
  simpl. eexists. reflexivity.
Qed.

Lemma gap_zero_activates_witness :
  exists glyph w',
    drawColumnFrame 3 (mkColumn false 0 0 5 2 0) 24 sampleTable sampleWorld =
    (Ok (mkColumn true 2 0 5 2 glyph), w').
Proof.
  destruct (gap_zero_activates 3 (mkColumn false 0 0 5 2 0) 24 sampleTable
              sampleWorld) as [glyph [w' [E _]]];
    simpl; try reflexivity; try (int_range; lia); try lia.
  exists glyph, w'. exact E.
Defined.

(** C2, as stated, fails: after the call on a gap column with [gap = 0]
    the head is 2, not 1 (row 1 was drawn by this very call).  And a
    column whose [height+length] is below 1, such as the zero column on a
    terminal of height 0, is back in the gap state after that call. *)
Lemma gap_zero_counterexample :
  drawColumnFrame 3 (mkColumn false 0 0 5 2 0) 24 sampleTable sampleWorld =
  (Ok (mkColumn true 2 0 5 2 65405),
   mkWorld [19; 26; 33; 40; 47; 54] [DrawBold 1 4 "128;237;18" 65405]) /\
  head (mkColumn true 2 0 5 2 65405) <> 1 /\
  drawColumnFrame 3 zeroColumn 0 sampleTable sampleWorld =
  (Ok (mkColumn false 0 7 3 2 0), mkWorld [33; 40; 47; 54] []).
Proof.
  split; [vm_compute; reflexivity | ].
  split; [simpl; lia | vm_compute; reflexivity].
Qed.

(** C1 (amended). For a falling column whose head is an [int] below the
    largest one and whose [height+length] fits the 64-bit [int]: a call
    with [head <= height+length] returns the column still falling with
    [head] one higher; a call with [head > height+length] returns, for
    every terminal height of at least -1 and every non-empty table, a gap
    column with [head = 0]; so whatever a call returns has a head not
    below the old one while falling, and 0 once deactivated. *)
Theorem falling_head_advances idx col height table w :
  active col = true ->
  in_int (head col) -> head col <> max_int ->
  in_int (height + length col) ->
  (head col <= height + length col ->
   exists col' w',
     drawColumnFrame idx col height table w = (Ok col', w') /\
     active col' = true /\ head col' = head col + 1) /\
  (height + length col < head col ->
   table <> [] -> in_int height -> -1 <= height ->
   exists col' w',
     drawColumnFrame idx col height table w = (Ok col', w') /\
     active col' = false /\ head col' = 0) /\
  (forall col' w',
     drawColumnFrame idx col height table w = (Ok col', w') ->
     (active col' = true -> head col <= head col') /\
     (active col' = false -> head col' = 0)).
Proof.
  intros Hact Hhead Hmax Hfit.
  pose proof (drawColumnFrame_falling idx col height table w
                (countingDown_active col Hact)) as E.
  cbv zeta in E. rewrite (frameColumn_active col Hact) in E.
  assert (Hsum : add height (length col) = height + length col)
    by (apply wrap_id, Hfit).
  assert (Hnext : add (head col) 1 = head col + 1)
    by (apply wrap_id; int_range; lia).
  split; [ | split].
  - intros Hle. rewrite Hsum in E.
    destruct (head col >? height + length col) eqn:Hres;
      [apply Z.gtb_lt in Hres; lia | ].
    eexists. eexists. split; [exact E | ].
    cbn [active head]. split; [reflexivity | exact Hnext].
  - intros Hgt Hne Hi Hh. rewrite Hsum in E.
    destruct (Z.gtb_spec (head col) (height + length col)) as [_ | Hbad];
      [ | lia].
    destruct (resample_ok height (colorOffset col) table
                (mkWorld (frameRng col height (rng w))
                   (written w ++ frameInstrs idx col height table (rng w)))
                Hi Hh Hne) as [g [l [c [_ [_ [_ R]]]]]].
    rewrite R in E.
    eexists. eexists. split; [exact E | ]. split; reflexivity.
  - intros col' w' Hrun. rewrite Hrun in E.
    destruct (head col >? add height (length col)).
    + unfold resample, bind in E.
      destruct (randIntn 10 _) as [[g | msg] w1]; [ | discriminate].
      destruct (randIntn (add (quot height 2) 1) w1) as [[l | msg] w2];
        [ | discriminate].
      destruct (randIntn (len table) w2) as [[c | msg] w3]; [ | discriminate].
      destruct (checked_rem _ _ w3) as [[off | msg] w4]; [ | discriminate].
      unfold ret in E. injection E as -> _.
      split; [discriminate | reflexivity].
    + injection E as -> _. cbn [active head]. rewrite Hnext.
      split; [lia | discriminate].
Qed.

Lemma falling_head_advances_witness :
  (exists col' w',
     drawColumnFrame 3 (mkColumn true 7 0 5 2 65393) 24 sampleTable sampleWorld
       = (Ok col', w') /\ active col' = true /\ head col' = 8) /\
  (exists col' w',
     drawColumnFrame 3 (mkColumn true 30 0 5 2 65393) 24 sampleTable sampleWorld
       = (Ok col', w') /\ active col' = false /\ head col' = 0).
Proof.
  split.
  - destruct (falling_head_advances 3 (mkColumn true 7 0 5 2 65393) 24
                sampleTable sampleWorld) as [Hstep _];
      simpl; try reflexivity; try (int_range; lia).
    apply Hstep. simpl. lia.
  - destruct (falling_head_advances 3 (mkColumn true 30 0 5 2 65393) 24
                sampleTable sampleWorld) as [_ [Hreset _]];
      simpl; try reflexivity; try (int_range; lia).
    apply Hreset; simpl; try lia; try discriminate; int_range; lia.
Defined.

(** C1, as stated for every height and length, fails.  With the height
    [2^63-1] (which [clampDimensions] lets through) the sum
    [height+length] wraps, and a column at head 1, far from exceeding
    the exact sum, is sent back to the gap state.  With a height below
    -1 the resampling panics in [rand.Intn] instead of returning. *)
Lemma falling_head_counterexample :
  in_int max_int /\
  1 <= max_int + 3 /\
  drawColumnFrame 0 (mkColumn true 1 0 3 0 0) max_int sampleTable sampleWorld =
    (Ok (mkColumn false 0 14 29 0 0),
     mkWorld [40; 47; 54] [DrawBold 1 1 "140;230;12" 65405]) /\
  -5 + 3 < 0 /\
  fst (drawColumnFrame 0 (mkColumn true 0 0 3 0 0) (-5) sampleTable sampleWorld)
    = Panic "invalid argument to Intn".
Proof.
  repeat split; vm_compute; congruence.
Qed.

(** ** Sampling of [gap] and [length] *)

Lemma randIntn_ok (n : Z) (w : World) :
  0 < n ->
  randIntn n w = (Ok (hd 0 (rng w) mod n), mkWorld (tl (rng w)) (written w)) /\
  0 <= hd 0 (rng w) mod n < n.
Proof.
  intros Hn. unfold randIntn.
  destruct (Intn_ok n (rng w) Hn) as [E B]. rewrite E. split; [reflexivity | exact B].
Qed.

Lemma sampleColumns_ok (height rainbowLen : Z) :
  in_int height -> -1 <= height -> 0 < rainbowLen ->
  forall (count : nat) (w : World),
  exists cols w',
    sampleColumns count height rainbowLen w = (Ok cols, w') /\
    List.length cols = count /\
    written w' = written w /\
    Forall (fun c => sampled_ok height c /\ active c = false /\ head c = 0 /\
                     0 <= colorOffset c < rainbowLen /\ lastChar c = 0) cols.
Proof.
  intros Hi Hh Hlen.
  destruct (length_bound_exact height Hi Hh) as [Hb Hpos].
  destruct (quot_2_bounds height Hh) as [H0 [H1 H2]].
  induction count as [ | count IH]; intros w.
  - exists [], w. simpl. unfold ret. repeat split. constructor.
  - cbn [sampleColumns]. unfold bind at 1.
    destruct (randIntn_ok 10 w ltac:(lia)) as [E1 B1]. rewrite E1.
    unfold bind at 1. rewrite Hb.
    destruct (randIntn_ok (Z.quot height 2 + 1)
                (mkWorld (tl (rng w)) (written w)) Hpos) as [E2 B2].
    rewrite E2. cbn [rng written] in *.
    unfold bind at 1.
    destruct (randIntn_ok rainbowLen
                (mkWorld (tl (tl (rng w))) (written w)) Hlen) as [E3 B3].
    rewrite E3. cbn [rng written] in *.
    unfold bind at 1.
    destruct (IH (mkWorld (tl (tl (tl (rng w)))) (written w)))
      as [cols [w' [E [Hn [Hw HF]]]]].
    rewrite E. unfold ret.
    eexists. exists w'. split; [reflexivity | ].
    split; [simpl; rewrite Hn; reflexivity | ].
    split; [exact Hw | ].
    constructor; [ | exact HF].
    unfold sampled_ok, add. cbn [gap length active head colorOffset lastChar].
    rewrite !wrap_id by (int_range; lia).
    repeat split; lia.
Qed.

Lemma makeslice_ok (mem elemSize n : Z) :
  allocatable mem elemSize n -> makeslice mem elemSize n = Ok tt.
Proof.
  intros [Hn [Hmax Hmem]]. unfold makeslice.
  destruct (Z.ltb_spec n 0); [lia | ].
  destruct (Z.gtb_spec (elemSize * n) maxAlloc); [lia | ].
  destruct (Z.gtb_spec (elemSize * n) (Z.max mem 0)); [lia | reflexivity].
Qed.

Lemma makeslice_Ok_inv (mem elemSize n : Z) (u : unit) :
  makeslice mem elemSize n = Ok u -> 0 <= n /\ elemSize * n <= maxAlloc.
Proof.
  unfold makeslice.
  destruct (Z.ltb_spec n 0); [discriminate | ].
  destruct (Z.gtb_spec (elemSize * n) maxAlloc); [discriminate | ].
  intros _. split; assumption.
Qed.

(** Whatever the table length handed over, the columns a successful
    sampling returns are in range. *)
Lemma sampleColumns_sampled (height : Z) :
  in_int height -> -1 <= height ->
  forall (count : nat) (rainbowLen : Z) (w : World) cols w',
    sampleColumns count height rainbowLen w = (Ok cols, w') ->
    List.length cols = count /\ Forall (sampled_ok height) cols.
Proof.
  intros Hi Hh.
  destruct (length_bound_exact height Hi Hh) as [Hb Hpos].
  destruct (quot_2_bounds height Hh) as [H0 [H1 H2]].
  induction count as [ | count IH]; intros rainbowLen w cols w' E.
  - cbn in E. injection E as <- _. split; [reflexivity | constructor].
  - cbn [sampleColumns] in E. unfold bind at 1 in E.
    destruct (randIntn_ok 10 w ltac:(lia)) as [E1 B1]. rewrite E1 in E.
    unfold bind at 1 in E. rewrite Hb in E.
    destruct (randIntn_ok (Z.quot height 2 + 1)
                (mkWorld (tl (rng w)) (written w)) Hpos) as [E2 B2].
    rewrite E2 in E. cbn [rng written] in *.
    unfold bind at 1 in E.
    destruct (randIntn rainbowLen _) as [[c | msg] w3]; [ | discriminate].
    unfold bind at 1 in E.
    destruct (sampleColumns count height rainbowLen w3)
      as [[rest | msg] w4] eqn:E4; [ | discriminate].
    unfold ret in E. injection E as <- _.
    destruct (IH rainbowLen w3 rest w4 E4) as [Hn HF].
    split; [simpl; rewrite Hn; reflexivity | ].
    constructor; [ | exact HF].
    unfold sampled_ok, add. cbn [gap length].
    rewrite !wrap_id by (int_range; lia). lia.
Qed.

(** C3 (amended). For every terminal height of at least -1 and every
    random source, the parameters sampled by [initColumns] and by the
    Falling -> Gap block of [drawColumnFrame] satisfy: [gap] lies in
    [[5,15)] and [length] lies in [[3, height/2+4)], that is in the closed
    range [3 .. height/2+3].  This holds of all the columns every
    successful call of [initColumns] returns; [initColumns] is successful
    whenever the slice of [count] columns can be made (a count of at
    least 0, 48 bytes per column within the allocation limit and the
    memory granted) and the table length is not negative. *)
Theorem sampled_parameters_in_range (height : Z) :
  in_int height -> -1 <= height ->
  (forall mem count rainbowLen w cols w',
     initColumns mem count height rainbowLen w = (Ok cols, w') ->
     len cols = count /\ Forall (sampled_ok height) cols) /\
  (forall mem count rainbowLen w,
     0 <= rainbowLen -> allocatable mem sizeof_column count ->
     exists cols w',
       initColumns mem count height rainbowLen w = (Ok cols, w')) /\
  (forall idx col table w,
     table <> [] ->
     countingDown col = false ->
     (head (frameColumn col) >? add height (length (frameColumn col))) = true ->
     exists col' w',
       drawColumnFrame idx col height table w = (Ok col', w') /\
       active col' = false /\
       sampled_ok height col').
Proof.
  intros Hi Hh. split; [ | split].
  - intros mem count rainbowLen w cols w' E.
    unfold initColumns in E.
    destruct (makeslice mem sizeof_column count) as [u | msg] eqn:Em;
      [ | discriminate].
    destruct (makeslice_Ok_inv _ _ _ _ Em) as [Hc _].
    destruct (sampleColumns_sampled height Hi Hh _ _ _ _ _ E) as [Hn HF].
    split; [unfold len; rewrite Hn; lia | exact HF].
  - intros mem count rainbowLen w Hr Halloc.
    unfold initColumns. rewrite (makeslice_ok _ _ _ Halloc).
    assert (Hlen : 0 < (if rainbowLen =? 0 then 1 else rainbowLen))
      by (destruct (Z.eqb_spec rainbowLen 0); lia).
    destruct (sampleColumns_ok height _ Hi Hh Hlen (Z.to_nat count) w)
      as [cols [w' [E _]]].
    exists cols, w'. exact E.
  - intros idx col table w Hne Hcd Hres.
    pose proof (drawColumnFrame_falling idx col height table w Hcd) as E.
    cbv zeta in E. rewrite Hres in E.
    destruct (resample_ok height (colorOffset (frameColumn col)) table
                (mkWorld (frameRng (frameColumn col) height (rng w))
                   (written w ++
                    frameInstrs idx (frameColumn col) height table (rng w)))
                Hi Hh Hne) as [g [l [c [Bg [Bl [_ R]]]]]].
    rewrite R in E.
    eexists. eexists. split; [exact E | ].
    split; [reflexivity | ].
    unfold sampled_ok. cbn [gap length]. lia.
Qed.

Lemma sampled_parameters_in_range_witness :
  exists cols w',
    initColumns sampleMemory 2 24 63 sampleWorld = (Ok cols, w') /\
    len cols = 2 /\ Forall (sampled_ok 24) cols.
Proof.
  destruct (sampled_parameters_in_range 24) as [Hrange [Hinit _]];
    try (int_range; lia).
  destruct (Hinit sampleMemory 2 63 sampleWorld) as [cols [w' E]];
    [lia | vm_compute; intuition discriminate | ].
  exists cols, w'. split; [exact E | ].
  exact (Hrange sampleMemory 2 63 sampleWorld cols w' E).
Defined.

(** C3, as stated, fails in the upper bound of [length]: with height 24
    the draw [rand.Intn(13)] can be 12, and the sampled length is then
    15 = height/2+3, outside the half-open [[3, height/2+3)].  It also
    fails for the heights below -1, where the sampling panics. *)
Lemma sampled_length_counterexample :
  initColumns sampleMemory 1 24 63 (mkWorld [0; 12; 0] []) =
    (Ok [mkColumn false 0 5 15 0 0], mkWorld [] []) /\
  drawColumnFrame 0 (mkColumn true 40 0 3 0 0) 24 sampleTable
    (mkWorld [0; 12; 0] []) =
    (Ok (mkColumn false 0 5 15 0 0), mkWorld [] []) /\
  ~ (3 <= 15 < 24 / 2 + 3) /\
  fst (initColumns sampleMemory 1 (-4) 63 sampleWorld)
    = Panic "invalid argument to Intn".
Proof.
  split; [vm_compute; reflexivity | ].
  split; [vm_compute; reflexivity | ].
  split; [ | vm_compute; reflexivity].
  intros [_ H]. vm_compute in H. discriminate.
Qed.

(** ** The invariant of the columns *)

Lemma column_inv_ok (height : Z) (col : column) :
  0 <= height <= 2 ^ 62 -> column_inv height col -> column_ok col.
Proof.
  intros Hh [Hl [Hg [Ha Hi]]].
  destruct (quot_2_bounds height ltac:(lia)) as [H0 [H1 H2]].
  unfold column_ok, max_int.
  repeat split; try lia; try exact Hi;
    destruct (active col); try (specialize (Ha eq_refl)); try (specialize (Hi eq_refl)); lia.
Qed.

Lemma initColumns_inv (mem count height rainbowLen : Z) (w : World) :
  allocatable mem sizeof_column count ->
  0 <= rainbowLen -> 0 <= height <= 2 ^ 62 ->
  exists cols w',
    initColumns mem count height rainbowLen w = (Ok cols, w') /\
    Forall (column_inv height) cols.
Proof.
  intros Hc Hr Hh. unfold initColumns. rewrite (makeslice_ok _ _ _ Hc).
  assert (Hlen : 0 < (if rainbowLen =? 0 then 1 else rainbowLen))
    by (destruct (Z.eqb_spec rainbowLen 0); lia).
  destruct (sampleColumns_ok height _ ltac:(int_range; lia) ltac:(lia) Hlen
              (Z.to_nat count) w) as [cols [w' [E [_ [_ HF]]]]].
  exists cols, w'. split; [exact E | ].
  eapply Forall_impl; [ | exact HF].
  intros c [[Hg Hl] [Ha [Hd _]]]. unfold column_inv.
  split; [lia | ]. split; [lia | ].
  split; [intros Ht; rewrite Ha in Ht; discriminate | intros _; exact Hd].
Qed.

Lemma drawColumnFrame_inv idx col height table w :
  0 <= height <= 2 ^ 62 -> table <> [] -> column_inv height col ->
  exists col' w',
    drawColumnFrame idx col height table w = (Ok col', w') /\
    column_inv height col'.
Proof.
  intros Hh Hne [Hl [Hg [Ha Hi]]].
  destruct (quot_2_bounds height ltac:(lia)) as [H0 [H1 H2]].
  destruct (countingDown col) eqn:Hcd.
  - rewrite (drawColumnFrame_countdown idx col height table w Hcd).
    eexists. eexists. split; [reflexivity | ].
    unfold countingDown in Hcd. apply andb_prop in Hcd as [Hna Hpos].
    apply Z.gtb_lt in Hpos.
    unfold column_inv, sub. cbn [active head gap length].
    rewrite wrap_id by (int_range; lia).
    split; [lia | ]. split; [lia | ]. split; assumption.
  - pose proof (drawColumnFrame_falling idx col height table w Hcd) as E.
    cbv zeta in E.
    assert (Hf : 1 <= head (frameColumn col)
                   <= height + length (frameColumn col) + 1 /\
                 length (frameColumn col) = length col /\
                 gap (frameColumn col) = gap col).
    { unfold frameColumn. destruct (active col).
      - specialize (Ha eq_refl). repeat split; lia.
      - cbn [head length gap]. repeat split; lia. }
    destruct Hf as [Hhd [Hlen Hgap]].
    rewrite Hlen, Hgap in *.
    unfold add at 1 in E. rewrite wrap_id in E by (int_range; lia).
    destruct (Z.gtb_spec (head (frameColumn col)) (height + length col)).
    + destruct (resample_ok height (colorOffset (frameColumn col)) table
                  (mkWorld (frameRng (frameColumn col) height (rng w))
                     (written w ++
                      frameInstrs idx (frameColumn col) height table (rng w)))
                  ltac:(int_range; lia) ltac:(lia) Hne)
        as [g [l [c [Bg [Bl [_ R]]]]]].
      rewrite R in E. eexists. eexists. split; [exact E | ].
      unfold column_inv. cbn [active head gap length].
      split; [lia | ]. split; [lia | ].
      split; [discriminate | reflexivity].
    + eexists. eexists. split; [exact E | ].
      unfold column_inv, add. cbn [active head gap length].
      rewrite wrap_id by (int_range; lia).
      split; [lia | ]. split; [lia | ].
      split; [intros _; lia | discriminate].
Qed.

(** ** Erasure *)

Lemma resample_written (height off : Z) (table : list string) (w : World) :
  written (snd (resample height off table w)) = written w.
Proof.
  unfold resample, bind, randIntn, Intn, checked_rem, panic, ret.
  destruct w as [r out]. cbn [rng written].
  destruct (10 <=? 0); cbn [snd written rng]; [reflexivity | ].
  destruct (add (quot height 2) 1 <=? 0); cbn [snd written rng]; [reflexivity | ].
  destruct (len table <=? 0); cbn [snd written rng]; [reflexivity | ].
  destruct (len table =? 0); reflexivity.
Qed.

(** What a call appends to the buffer. *)
Lemma drawColumnFrame_written idx col height table w :
  written (snd (drawColumnFrame idx col height table w)) =
  written w ++
    (if countingDown col then []
     else frameInstrs idx (frameColumn col) height table (rng w)).
Proof.
  destruct (countingDown col) eqn:Hcd.
  - rewrite (drawColumnFrame_countdown idx col height table w Hcd).
    cbn [snd]. rewrite app_nil_r. reflexivity.
  - rewrite (drawColumnFrame_falling idx col height table w Hcd).
    cbv zeta.
    destruct (head (frameColumn col) >? add height (length (frameColumn col))).
    + rewrite resample_written. reflexivity.
    + reflexivity.
Qed.

Lemma erasedRows_frameInstrs idx fc height table r :
  erasedRows (frameInstrs idx fc height table r) =
  if inWindow height (sub (head fc) (length fc))
  then [sub (head fc) (length fc)] else [].
Proof.
  unfold frameInstrs, erasedRows.
  destruct (inWindow height (head fc));
    destruct (inWindow height (sub (head fc) 1) && negb (lastChar fc =? 0));
    destruct (inWindow height (sub (head fc) (length fc))); reflexivity.
Qed.

Lemma inWindow_spec (height row : Z) :
  inWindow height row = true <-> 1 <= row <= height.
Proof.
  unfold inWindow. rewrite andb_true_iff, Z.geb_le, Z.leb_le. lia.
Qed.

(** C8. Whatever a call appends to the buffer, every row it erases lies
    in [[1, height]].  A call that only counts the gap down erases
    nothing; a call that draws a frame erases the row [head-length] of
    that frame exactly when [1 <= head-length <= height].  On a column of
    the data model (head a row number, 0 in the gap; positive trail
    length) this reads, with the head the column had before the call:
    the row [head-length] is erased if and only if
    [1 <= head-length <= height]. *)
Theorem erase_only_inside_window idx col height table w :
  exists new,
    written (snd (drawColumnFrame idx col height table w)) = written w ++ new /\
    (forall row, In row (erasedRows new) -> 1 <= row <= height) /\
    (countingDown col = true -> new = []) /\
    (countingDown col = false ->
     in_int (head (frameColumn col) - length col) ->
     (In (head (frameColumn col) - length col) (erasedRows new) <->
      1 <= head (frameColumn col) - length col <= height)) /\
    (column_ok col ->
     (In (head col - length col) (erasedRows new) <->
      1 <= head col - length col <= height)).
Proof.
  eexists. split; [apply drawColumnFrame_written | ].
  destruct (countingDown col) eqn:Hcd.
  - split; [intros row [] | ].
    split; [reflexivity | ]. split; [discriminate | ].
    intros [Hhd [Hlen Hgap]].
    unfold countingDown in Hcd. apply andb_prop in Hcd as [Hna _].
    apply negb_true_iff in Hna. specialize (Hgap Hna).
    split; [intros [] | lia].
  - rewrite erasedRows_frameInstrs.
    assert (Hlen : length (frameColumn col) = length col)
      by (unfold frameColumn; destruct (active col); reflexivity).
    rewrite Hlen.
    split; [ | split; [discriminate | split]].
    + intros row Hin.
      destruct (inWindow height _) eqn:Hwin; [ | destruct Hin].
      destruct Hin as [<- | []]. apply inWindow_spec, Hwin.
    + intros _ Hfit. unfold sub. rewrite wrap_id by exact Hfit.
      destruct (inWindow height _) eqn:Hwin.
      * apply inWindow_spec in Hwin. split; [intros _; exact Hwin | ].
        intros _. left. reflexivity.
      * split; [intros [] | ].
        intros Hin. apply inWindow_spec in Hin. congruence.
    + intros [Hhd [Hl Hgap]]. unfold frameColumn.
      destruct (active col) eqn:Hact.
      * unfold sub. rewrite wrap_id by (int_range; lia).
        destruct (inWindow height (head col - length col)) eqn:Hwin.
        -- apply inWindow_spec in Hwin. split; [intros _; exact Hwin | ].
           intros _. left. reflexivity.
        -- split; [intros [] | ].
           intros Hin. apply inWindow_spec in Hin. congruence.
      * specialize (Hgap eq_refl). cbn [head].
        unfold sub. rewrite wrap_id by (int_range; lia).
        destruct (inWindow height (1 - length col)) eqn:Hwin.
        -- apply inWindow_spec in Hwin. lia.
        -- split; [intros [] | lia].
Qed.

Lemma erase_only_inside_window_witness :
  exists new,
    written (snd (drawColumnFrame 3 (mkColumn true 7 0 5 2 65393) 24
                    sampleTable sampleWorld)) = written sampleWorld ++ new /\
    In 2 (erasedRows new).
Proof.
  destruct (erase_only_inside_window 3 (mkColumn true 7 0 5 2 65393) 24
              sampleTable sampleWorld) as [new [Hw [_ [_ [_ Hiff]]]]].
  exists new. split; [exact Hw | ].
  assert (Hok : column_ok (mkColumn true 7 0 5 2 65393)).
  { unfold column_ok, max_int. simpl.
    split; [lia | split; [lia | discriminate]]. }
  apply (proj2 (Hiff Hok)). simpl. lia.
Defined.

(** ** parseArguments *)

Lemma is_speed_flag_inv (flag : string) :
  is_speed_flag flag = true -> flag = "-s"%string \/ flag = "--speed"%string.
Proof.
  unfold is_speed_flag. intros H. apply orb_prop in H as [H | H];
    apply String.eqb_eq in H; auto.
Qed.

Lemma is_density_flag_inv (flag : string) :
  is_density_flag flag = true -> flag = "-d"%string \/ flag = "--density"%string.
Proof.
  unfold is_density_flag. intros H. apply orb_prop in H as [H | H];
    apply String.eqb_eq in H; auto.
Qed.

(** One round of the loop at a speed flag. *)
Lemma parseLoop_speed (cfg : config) (flag v : string) (rest : list string) :
  is_speed_flag flag = true ->
  parseLoop cfg (flag :: v :: rest) =
  match Atoi v with
  | Some value =>
      if (value <? 1) || (value >? 10) then (cfg, false, speed_error)
      else parseLoop (mkConfig value (density cfg)) rest
  | None => (cfg, false, speed_error)
  end.
Proof.
  intros H. destruct (is_speed_flag_inv flag H) as [-> | ->]; reflexivity.
Qed.

(** One round of the loop at a density flag. *)
Lemma parseLoop_density (cfg : config) (flag v : string) (rest : list string) :
  is_density_flag flag = true ->
  parseLoop cfg (flag :: v :: rest) =
  match Atoi v with
  | Some value =>
      if (value <? 1) || (value >? 100) then (cfg, false, density_error)
      else parseLoop (mkConfig (speed cfg) value) rest
  | None => (cfg, false, density_error)
  end.
Proof.
  intros H. destruct (is_density_flag_inv flag H) as [-> | ->]; reflexivity.
Qed.

(** A prefix the loop consumes to its end, without help and without
    error, hands its configuration over to the rest of the arguments. *)
Lemma parseLoop_app (n : nat) :
  forall (pre rest : list string) (cfg cfg' : config),
    (List.length pre <= n)%nat ->
    parseLoop cfg pre = (cfg', false, None) ->
    parseLoop cfg (pre ++ rest) = parseLoop cfg' rest.
Proof.
  induction n as [ | n IH]; intros pre rest cfg cfg' Hlen Hpre.
  - destruct pre; [ | simpl in Hlen; lia].
    simpl in Hpre. injection Hpre as ->. reflexivity.
  - destruct pre as [ | arg pre]; [simpl in Hpre; injection Hpre as ->; reflexivity | ].
    cbn [parseLoop app] in *.
    destruct (String.eqb arg "-h" || String.eqb arg "--help"); [discriminate | ].
    destruct (String.eqb arg "-s" || String.eqb arg "--speed").
    { destruct pre as [ | v pre]; [discriminate | ]. cbn [app].
      destruct (Atoi v) as [value | ]; [ | discriminate].
      destruct ((value <? 1) || (value >? 10)); [discriminate | ].
      apply IH; [simpl in Hlen; lia | exact Hpre]. }
    destruct (String.eqb arg "-d" || String.eqb arg "--density").
    { destruct pre as [ | v pre]; [discriminate | ]. cbn [app].
      destruct (Atoi v) as [value | ]; [ | discriminate].
      destruct ((value <? 1) || (value >? 100)); [discriminate | ].
      apply IH; [simpl in Hlen; lia | exact Hpre]. }
    discriminate.
Qed.

Lemma bad_value_rejected (hi : Z) (v : string) :
  bad_value hi v ->
  match Atoi v with
  | Some value => (value <? 1) || (value >? hi) = true
  | None => True
  end.
Proof.
  unfold bad_value. destruct (Atoi v) as [value | ]; [ | trivial].
  intros [H | H]; apply orb_true_iff; [left | right].
  - apply Z.ltb_lt, H.
  - apply Z.gtb_lt, H.
Qed.

(** C9 (amended). Whenever the scan reaches a [-s]/[--speed] flag (the
    arguments before it were consumed without help and without error)
    whose value is not an integer or lies outside 1..10, [parseArguments]
    returns the speed error; likewise for [-d]/[--density] and 1..100;
    an integer value in range is stored and the scan goes on; and
    without any speed or density flag the returned configuration has
    speed 5 and density 80. *)
Theorem parseArguments_validates (pre rest : list string) (cfg : config)
    (flag v : string) :
  parseArguments pre = (cfg, false, None) ->
  (is_speed_flag flag = true -> bad_value 10 v ->
   parseArguments (pre ++ flag :: v :: rest) = (cfg, false, speed_error)) /\
  (is_density_flag flag = true -> bad_value 100 v ->
   parseArguments (pre ++ flag :: v :: rest) = (cfg, false, density_error)) /\
  (forall n, is_speed_flag flag = true -> Atoi v = Some n -> 1 <= n <= 10 ->
   parseArguments (pre ++ flag :: v :: rest) =
   parseLoop (mkConfig n (density cfg)) rest) /\
  (forall n, is_density_flag flag = true -> Atoi v = Some n -> 1 <= n <= 100 ->
   parseArguments (pre ++ flag :: v :: rest) =
   parseLoop (mkConfig (speed cfg) n) rest) /\
  (forall args,
     (forall a, In a args -> is_speed_flag a = false /\ is_density_flag a = false) ->
     cfg_of (parseArguments args) = mkConfig 5 80) /\
  parseArguments [] = (mkConfig 5 80, false, None).
Proof.
  intros Hpre. unfold parseArguments in *.
  pose proof (parseLoop_app (List.length pre) pre (flag :: v :: rest) _ _
                (le_n _) Hpre) as Happ.
  split; [ | split; [ | split; [ | split; [ | split]]]].
  - intros Hflag Hbad. rewrite Happ, (parseLoop_speed _ _ _ _ Hflag).
    pose proof (bad_value_rejected 10 v Hbad) as Hrej.
    destruct (Atoi v); [rewrite Hrej | ]; reflexivity.
  - intros Hflag Hbad. rewrite Happ, (parseLoop_density _ _ _ _ Hflag).
    pose proof (bad_value_rejected 100 v Hbad) as Hrej.
    destruct (Atoi v); [rewrite Hrej | ]; reflexivity.
  - intros n Hflag Hv Hn. rewrite Happ, (parseLoop_speed _ _ _ _ Hflag), Hv.
    destruct (Z.ltb_spec n 1); [lia | ].
    destruct (n >? 10) eqn:Hgt; [apply Z.gtb_lt in Hgt; lia | reflexivity].
  - intros n Hflag Hv Hn. rewrite Happ, (parseLoop_density _ _ _ _ Hflag), Hv.
    destruct (Z.ltb_spec n 1); [lia | ].
    destruct (n >? 100) eqn:Hgt; [apply Z.gtb_lt in Hgt; lia | reflexivity].
  - intros args Hno. destruct args as [ | arg args]; [reflexivity | ].
    destruct (Hno arg (or_introl eq_refl)) as [Hs Hd].
    unfold is_speed_flag in Hs. unfold is_density_flag in Hd.
    cbn [parseLoop]. rewrite Hs, Hd.
    destruct (String.eqb arg "-h" || String.eqb arg "--help"); reflexivity.
  - reflexivity.
Qed.

Lemma parseArguments_validates_witness :
  parseArguments ["-d"; "50"; "--speed"; "11"; "-h"]%string =
    (mkConfig 5 50, false, speed_error) /\
  parseArguments ["-d"; "50"; "--speed"; "7"]%string =
    (mkConfig 7 50, false, None).
Proof.
  destruct (parseArguments_validates ["-d"; "50"]%string ["-h"]%string
              (mkConfig 5 50) "--speed"%string "11"%string eq_refl)
    as [Hbad _].
  destruct (parseArguments_validates ["-d"; "50"]%string []
              (mkConfig 5 50) "--speed"%string "7"%string eq_refl)
    as [_ [_ [Hgood _]]].
  split.
  - apply Hbad; [reflexivity | ]. unfold bad_value. simpl. lia.
  - apply (Hgood 7); [reflexivity | reflexivity | lia].
Defined.

(** C9, as stated for every argument list, fails: a help flag ends the
    scan, so a bad speed or density value after it raises no error. *)
Lemma parseArguments_counterexample :
  Atoi "abc" = None /\
  parseArguments ["-h"; "-s"; "abc"]%string = (mkConfig 5 80, true, None) /\
  Atoi "101" = Some 101 /\
  parseArguments ["--help"; "--density"; "101"]%string =
    (mkConfig 5 80, true, None).
Proof.
  repeat split; reflexivity.
Qed.

(** ** buildRainbowTable *)

Lemma fillTable_length (Sin : float -> float) (freq : float) (n : nat) :
  forall i, List.length (fillTable Sin freq i n) = n.
Proof.
  induction n as [ | n IH]; intros i; simpl; [reflexivity | ].
  rewrite IH. reflexivity.
Qed.

Lemma fillTable_nth (Sin : float -> float) (freq : float) (n : nat) :
  forall (i : Z) (k : nat),
    (k < n)%nat ->
    nth k (fillTable Sin freq i n) ""%string
    = rainbowEntry Sin freq (i + Z.of_nat k).
Proof.
  induction n as [ | n IH]; intros i k Hk; [lia | ].
  destruct k as [ | k]; simpl fillTable; cbn [nth].
  - rewrite Z.add_0_r. reflexivity.
  - rewrite IH by lia. f_equal. lia.
Qed.

Lemma buildRainbowTable_ok (mem : Z) (Sin : float -> float) (freq : float)
    (cycle : Z) :
  allocatable mem sizeof_string cycle ->
  buildRainbowTable mem Sin freq cycle
  = Ok (fillTable Sin freq 0 (Z.to_nat cycle)).
Proof.
  intros Halloc. unfold buildRainbowTable.
  rewrite (makeslice_ok _ _ _ Halloc). reflexivity.
Qed.

(** The quotient of two non-negative integers is the floor of their
    ratio. *)
Lemma Zfloor_quot (a b : Z) :
  0 <= a -> 0 < b -> Zfloor (IZR a / IZR b) = Z.quot a b.
Proof.
  intros Ha Hb. rewrite Z.quot_div_nonneg by lia.
  pose proof (Z.div_mod a b ltac:(lia)) as Hdm.
  pose proof (Z.mod_pos_bound a b Hb) as Hr.
  assert (HbR : (0 < IZR b)%R) by (apply IZR_lt; exact Hb).
  assert (HaR : IZR a = (IZR b * IZR (a / b) + IZR (a mod b))%R).
  { rewrite <- mult_IZR, <- plus_IZR. f_equal. exact Hdm. }
  assert (Hr0 : (0 <= IZR (a mod b))%R) by (apply IZR_le; lia).
  assert (Hr1 : (IZR (a mod b) < IZR b)%R) by (apply IZR_lt; lia).
  apply Zfloor_eq. rewrite HaR. split.
  - apply Rmult_le_reg_r with (IZR b); [exact HbR | ].
    unfold Rdiv. rewrite Rmult_assoc, Rinv_l, Rmult_1_r by lra. lra.
  - apply Rmult_lt_reg_r with (IZR b); [exact HbR | ].
    unfold Rdiv. rewrite Rmult_assoc, Rinv_l, Rmult_1_r by lra. lra.
Qed.

Lemma truncate_nonneg (z : Z) (x : R) :
  0 <= z -> (0 <= x)%R -> Zfloor x = z -> truncate x = z.
Proof.
  intros _ Hx E. unfold truncate.
  destruct (Rle_dec 0 x) as [_ | Hneg]; [exact E | lra].
Qed.

Lemma truncate_opp (z : Z) (x : R) :
  (0 < x)%R -> Zfloor x = z -> truncate (- x) = - z.
Proof.
  intros Hx E. unfold truncate.
  destruct (Rle_dec 0 (- x)) as [Hpos | _]; [lra | ].
  rewrite ZceilN, E. reflexivity.
Qed.

Lemma Some_inj {A : Type} (a b : A) : Some a = Some b -> a = b.
Proof. intros H. injection H as H. exact H. Qed.

(** [int(x)] is the truncation toward zero of the real number the float
    stands for, whenever that truncation is an int. *)
Lemma int_of_float_truncates (x : float) (v : R) :
  float_value x = Some v -> in_int (truncate v) ->
  int_of_float x = truncate v.
Proof.
  unfold float_value, int_of_float.
  destruct (Prim2SF x) as [s | s | | s m e]; try discriminate.
  - intros E _. apply Some_inj in E. subst v. unfold truncate.
    destruct (Rle_dec 0 0) as [_ | Hn]; [ | lra].
    symmetry. exact (ZfloorZ 0).
  - cbv zeta. intros E. apply Some_inj in E. subst v.
    set (q := if 0 <=? e then Z.pos m * 2 ^ e
              else Z.quot (Z.pos m) (2 ^ (- e))).
    set (a := if 0 <=? e then IZR (Z.pos m * 2 ^ e)
              else (IZR (Z.pos m) / IZR (2 ^ (- e)))%R).
    assert (Hq : (0 < a)%R /\ Zfloor a = q /\ 0 <= q).
    { unfold a, q. destruct (Z.leb_spec 0 e) as [He | He].
      - assert (0 < Z.pos m * 2 ^ e) by (apply Z.mul_pos_pos; lia).
        split; [apply IZR_lt; lia | ]. split; [apply ZfloorZ | lia].
      - assert (Hp : 0 < 2 ^ (- e)) by (apply Z.pow_pos_nonneg; lia).
        split.
        + apply Rdiv_lt_0_compat; apply IZR_lt; lia.
        + split; [apply Zfloor_quot; lia | ].
          apply Z.quot_pos; lia. }
    destruct Hq as [Ha [Hfl Hq0]].
    assert (Ht : truncate (if s then (- a)%R else a) = if s then - q else q).
    { destruct s.
      - apply truncate_opp; assumption.
      - apply truncate_nonneg; [exact Hq0 | lra | exact Hfl]. }
    rewrite Ht. intros [Hlo Hhi].
    destruct (Z.leb_spec min_int (if s then - q else q)); [ | lia].
    destruct (Z.leb_spec (if s then - q else q) max_int); [ | lia].
    reflexivity.
Qed.

(** C5 (amended). In float64 arithmetic, every operation rounded on its
    own (amd64), and for every table [make] can allocate (a length [C]
    of at least 0, 16 bytes per entry within the allocation limit and
    the memory granted): the table has [C] entries and, for every index
    [i] in [[0, C)], entry [i] prints the channels
    [r = int(Sin(f*float64(i))*127 + 128)],
    [g = int(Sin(f*float64(i) + twoPi/3)*127 + 128)] and
    [b = int(Sin(f*float64(i) + 2*twoPi/3)*127 + 128)], where [Sin] is the
    library's sine and [int] is Go's conversion of a float64, which
    truncates: whenever the float64 converted is finite and the
    truncation toward zero of its value is an int, the channel is that
    truncation (otherwise it is what [int] gives on amd64, the minimum
    int).  It is not the nearest integer. *)
Theorem buildRainbowTable_entries (mem : Z) (Sin : float -> float)
    (f : float) (C i : Z) :
  allocatable mem sizeof_string C ->
  0 <= i < C ->
  exists table r g b,
    buildRainbowTable mem Sin f C = Ok table /\
    len table = C /\
    nth (Z.to_nat i) table ""%string = Sprintf_rgb r g b /\
    r = int_of_float (Sin (f * float64_of_int i) * 127 + 128)%float /\
    g = int_of_float
          (Sin (f * float64_of_int i + twoPi / 3) * 127 + 128)%float /\
    b = int_of_float
          (Sin (f * float64_of_int i + 2 * twoPi / 3) * 127 + 128)%float /\
    (forall v,
       float_value (Sin (f * float64_of_int i) * 127 + 128)%float = Some v ->
       in_int (truncate v) -> r = truncate v) /\
    (forall v,
       float_value
         (Sin (f * float64_of_int i + twoPi / 3) * 127 + 128)%float = Some v ->
       in_int (truncate v) -> g = truncate v) /\
    (forall v,
       float_value
         (Sin (f * float64_of_int i + 2 * twoPi / 3) * 127 + 128)%float
       = Some v ->
       in_int (truncate v) -> b = truncate v).
Proof.
  intros Halloc Hi.
  rewrite (buildRainbowTable_ok mem Sin f C Halloc).
  eexists. eexists. eexists. eexists.
  split; [reflexivity | ].
  split; [unfold len; rewrite fillTable_length; lia | ].
  rewrite fillTable_nth by lia.
  rewrite Z.add_0_l, Z2Nat.id by lia.
  unfold rainbowEntry, redChannel, greenChannel, blueChannel. cbv zeta.
  split; [reflexivity | ].
  split; [reflexivity | ]. split; [reflexivity | ]. split; [reflexivity | ].
  split; [ | split]; intros v Hv Hin; apply int_of_float_truncates; assumption.
Qed.

Lemma buildRainbowTable_entries_witness :
  exists table,
    buildRainbowTable sampleMemory sineOfEntry0 rainbowFreq rainbowCycle
      = Ok table /\
    len table = 63 /\
    nth 0 table ""%string = "128;237;18"%string.
Proof.
  destruct (buildRainbowTable_entries sampleMemory sineOfEntry0 rainbowFreq
              rainbowCycle 0)
    as [table [r [g [b [E [Hl [Hn [Er [Eg [Eb _]]]]]]]]]].
  - vm_compute. intuition discriminate.
  - unfold rainbowCycle. lia.
  - exists table. split; [exact E | ]. split; [exact Hl | ].
    change (Z.to_nat 0) with 0%nat in Hn. rewrite Hn, Er, Eg, Eb.
    vm_compute. reflexivity.
Defined.

Lemma sqrt3_bounds : (21997 / 100 < 127 * sqrt 3 < 21998 / 100)%R.
Proof.
  pose proof (sqrt_pos 3) as Hpos.
  pose proof (sqrt_sqrt 3 ltac:(lra)) as Hsq.
  split; nra.
Qed.

Lemma round_nearest_between (z : Z) (x : R) :
  0 <= z -> (IZR z - / 2 <= x < IZR z + / 2)%R -> (0 <= x)%R ->
  round_nearest x = z.
Proof.
  intros Hz Hx H0. unfold round_nearest.
  destruct (Rle_dec 0 x) as [_ | Hneg]; [ | lra].
  apply Zfloor_eq. lra.
Qed.

(** The three channel values the specification rounds at index 0,
    whatever the frequency. *)
Lemma entry0_values (f : R) :
  (sin (f * IZR 0) * 127 + 128 = 128)%R /\
  (sin (f * IZR 0 + 2 * PI / 3) * 127 + 128 = sqrt 3 / 2 * 127 + 128)%R /\
  (sin (f * IZR 0 + 4 * PI / 3) * 127 + 128
   = - (sqrt 3 / 2) * 127 + 128)%R.
Proof.
  split; [ | split].
  - replace (f * 0)%R with 0%R by lra. rewrite sin_0. lra.
  - replace (f * 0 + 2 * PI / 3)%R with (2 * (PI / 3))%R by lra.
    rewrite sin_2PI3. reflexivity.
  - replace (f * 0 + 4 * PI / 3)%R with (PI / 3 + PI)%R by lra.
    rewrite neg_sin, sin_PI3. reflexivity.
Qed.

(** The truncation at entry 0 does not depend on the last bits of the
    sine: every float64 within 100 units in the last place of the
    nearest one is converted to the same channel. *)
Lemma green_truncation_robust (s : float) :
  In s (floats_near 100 sinTwoPi3) ->
  int_of_float (s * 127 + 128)%float = 237.
Proof.
  intros Hs.
  assert (H : forallb (fun s => int_of_float (s * 127 + 128)%float =? 237)
                (floats_near 100 sinTwoPi3) = true)
    by (vm_compute; reflexivity).
  rewrite forallb_forall in H. apply Z.eqb_eq. exact (H s Hs).
Qed.

Lemma blue_truncation_robust (s : float) :
  In s (floats_near 100 sinFourPi3) ->
  int_of_float (s * 127 + 128)%float = 18.
Proof.
  intros Hs.
  assert (H : forallb (fun s => int_of_float (s * 127 + 128)%float =? 18)
                (floats_near 100 sinFourPi3) = true)
    by (vm_compute; reflexivity).
  rewrite forallb_forall in H. apply Z.eqb_eq. exact (H s Hs).
Qed.

(** C5, as stated, fails at the first entry of the program's table.  The
    green channel is [int(Sin(twoPi/3)*127 + 128)]: the sine is
    0.8660254037844387, the float64 converted is 237.98522628062372, and
    the code stores 237 where rounding to the nearest integer gives 238.
    The entry is "128;237;18" for every sine that returns 0 at 0 and, at
    the two other arguments, a float64 within 100 units in the last
    place of the nearest one; the specification's entry is
    "128;238;18". *)
Lemma rainbow_rounding_counterexample :
  (forall Sin : float -> float,
     Sin 0%float = 0%float ->
     In (Sin (twoPi / 3)%float) (floats_near 100 sinTwoPi3) ->
     In (Sin (2 * twoPi / 3)%float) (floats_near 100 sinFourPi3) ->
     exists table,
       buildRainbowTable sampleMemory Sin rainbowFreq rainbowCycle
         = Ok table /\
       nth 0 table ""%string = "128;237;18"%string) /\
  (float_value (sinTwoPi3 * 127 + 128)%float
   = Some (IZR 8373360753102345 / IZR (2 ^ 45))%R /\
   int_of_float (sinTwoPi3 * 127 + 128)%float = 237) /\
  (forall f : R, rainbowEntry_spec f 0 = "128;238;18"%string).
Proof.
  split; [ | split].
  - intros Sin H0 Hg Hb.
    rewrite buildRainbowTable_ok by (vm_compute; intuition discriminate).
    eexists. split; [reflexivity | ].
    change (Z.to_nat rainbowCycle) with 63%nat.
    cbn [fillTable nth].
    unfold rainbowEntry, redChannel, greenChannel, blueChannel. cbv zeta.
    replace (rainbowFreq * float64_of_int 0)%float with 0%float
      by (vm_compute; reflexivity).
    replace (0 + twoPi / 3)%float with (twoPi / 3)%float
      by (vm_compute; reflexivity).
    replace (0 + 2 * twoPi / 3)%float with (2 * twoPi / 3)%float
      by (vm_compute; reflexivity).
    rewrite H0.
    rewrite (green_truncation_robust _ Hg), (blue_truncation_robust _ Hb).
    vm_compute. reflexivity.
  - split; vm_compute; reflexivity.
  - intros f. pose proof sqrt3_bounds as [Hlo Hhi].
    destruct (entry0_values f) as [Er [Eg Eb]].
    unfold rainbowEntry_spec. rewrite Er, Eg, Eb.
    rewrite (round_nearest_between 128) by (try lia; lra).
    rewrite (round_nearest_between 238) by (try lia; lra).
    rewrite (round_nearest_between 18) by (try lia; lra).
    reflexivity.
Qed.

(** * Further properties of [main.go] *)

(** ** One call of drawColumnFrame: panics *)

Lemma drawColumnFrame_ok idx col height table w :
  in_int height -> -1 <= height -> table <> [] ->
  exists col' w', drawColumnFrame idx col height table w = (Ok col', w').
Proof.
  intros Hi Hh Hne.
  destruct (countingDown col) eqn:Hcd.
  - rewrite (drawColumnFrame_countdown idx col height table w Hcd).
    eexists. eexists. reflexivity.
  - rewrite (drawColumnFrame_falling idx col height table w Hcd). cbv zeta.
    destruct (head (frameColumn col) >? add height (length (frameColumn col))).
    + destruct (resample_ok height (colorOffset (frameColumn col)) table
                  (mkWorld (frameRng (frameColumn col) height (rng w))
                     (written w ++
                      frameInstrs idx (frameColumn col) height table (rng w)))
                  Hi Hh Hne) as [g [l [c [_ [_ [_ R]]]]]].
      rewrite R. eexists. eexists. reflexivity.
    + eexists. eexists. reflexivity.
Qed.

(** Resampling on an empty table, or for a height below -1, panics in
    [rand.Intn]; the modulo by the table length is never reached. *)
Lemma resample_panics (height off : Z) (table : list string) (w : World) :
  in_int height -> height < -1 \/ table = [] ->
  exists w',
    resample height off table w = (Panic "invalid argument to Intn", w') /\
    written w' = written w.
Proof.
  intros Hi Hbad. destruct w as [r out].
  unfold resample, bind, randIntn, Intn. cbn [rng written].
  change (10 <=? 0) with false. cbn iota. cbn [rng written].
  destruct (Z.leb_spec (add (quot height 2) 1) 0) as [Hle | Hgt].
  { eexists. split; reflexivity. }
  cbn [rng written].
  destruct Hbad as [Hlow | ->]; [ | eexists; split; reflexivity].
  exfalso.
  pose proof (Z.quot_rem' height 2).
  destruct (rem_pos_divisor height 2 ltac:(lia)) as [_ Hn].
  specialize (Hn ltac:(lia)).
  unfold add, quot in Hgt.
  rewrite (wrap_id (Z.quot height 2)) in Hgt by (int_range; lia).
  rewrite wrap_id in Hgt by (int_range; lia). lia.
Qed.

(** X1. For a terminal height that is an [int], a call of
    [drawColumnFrame] panics exactly when it reaches the Falling -> Gap
    block with a height below -1 or an empty rainbow table; the panic is
    then the one of [rand.Intn], and what the frame drew before it is
    still in the buffer. *)
Theorem drawColumnFrame_panics_iff idx col height table w :
  in_int height ->
  ((exists msg w', drawColumnFrame idx col height table w = (Panic msg, w'))
   <-> resets col height = true /\ (height < -1 \/ table = [])) /\
  (forall msg w',
     drawColumnFrame idx col height table w = (Panic msg, w') ->
     msg = "invalid argument to Intn"%string /\
     written w' =
     written w ++ frameInstrs idx (frameColumn col) height table (rng w)).
Proof.
  intros Hi. unfold resets.
  destruct (countingDown col) eqn:Hcd.
  - rewrite (drawColumnFrame_countdown idx col height table w Hcd).
    split; [split | ].
    + intros [msg [w' E]]. discriminate.
    + intros [E _]. discriminate.
    + intros msg w' E. discriminate.
  - rewrite (drawColumnFrame_falling idx col height table w Hcd). cbv zeta.
    cbn [negb andb].
    destruct (head (frameColumn col) >? add height (length (frameColumn col))).
    + destruct (Z_lt_ge_dec height (-1)) as [Hlow | Hhigh];
        [ | destruct table as [ | e table]].
      * destruct (resample_panics height (colorOffset (frameColumn col)) table
                    (mkWorld (frameRng (frameColumn col) height (rng w))
                       (written w ++
                        frameInstrs idx (frameColumn col) height table (rng w)))
                    Hi (or_introl Hlow)) as [wp [R Hw]].
        rewrite R. split; [split | ].
        -- intros _. split; [reflexivity | left; exact Hlow].
        -- intros _. eexists. eexists. reflexivity.
        -- intros msg w' E. injection E as <- <-. split; [reflexivity | exact Hw].
      * destruct (resample_panics height (colorOffset (frameColumn col)) []
                    (mkWorld (frameRng (frameColumn col) height (rng w))
                       (written w ++
                        frameInstrs idx (frameColumn col) height [] (rng w)))
                    Hi (or_intror eq_refl)) as [wp [R Hw]].
        rewrite R. split; [split | ].
        -- intros _. split; [reflexivity | right; reflexivity].
        -- intros _. eexists. eexists. reflexivity.
        -- intros msg w' E. injection E as <- <-. split; [reflexivity | exact Hw].
      * destruct (resample_ok height (colorOffset (frameColumn col))
                    (e :: table)
                    (mkWorld (frameRng (frameColumn col) height (rng w))
                       (written w ++
                        frameInstrs idx (frameColumn col) height
                          (e :: table) (rng w)))
                    Hi ltac:(lia) ltac:(discriminate))
          as [g [l [c [_ [_ [_ R]]]]]].
        rewrite R. split; [split | ].
        -- intros [msg [w' E]]. discriminate.
        -- intros [_ [Hlow | Habs]]; [lia | discriminate].
        -- intros msg w' E. discriminate.
    + split; [split | ].
      * intros [msg [w' E]]. discriminate.
      * intros [E _]. discriminate.
      * intros msg w' E. discriminate.
Qed.

Lemma drawColumnFrame_panics_iff_witness :
  exists msg w',
    drawColumnFrame 0 (mkColumn true 40 0 5 2 0) 24 [] sampleWorld
    = (Panic msg, w').
Proof.
  destruct (drawColumnFrame_panics_iff 0 (mkColumn true 40 0 5 2 0) 24 []
              sampleWorld) as [[_ Hif] _].
  - int_range. lia.
  - apply Hif. split; [reflexivity | right; reflexivity].
Defined.

(** ** One call of drawColumnFrame: what is drawn *)

Lemma katakana_nonzero (g : rune) : In g katakanaChars -> g <> 0.
Proof.
  intros Hin Hz. subst g. revert Hin.
  unfold katakanaChars. simpl. intuition discriminate.
Qed.

(** The glyph picked for the head is one of the character set. *)
Lemma picked_glyph (r : Rand) :
  In (nth (Z.to_nat (hd 0 r mod len katakanaChars)) katakanaChars 0)
     katakanaChars.
Proof.
  apply nth_In.
  pose proof (Z.mod_pos_bound (hd 0 r) (len katakanaChars) ltac:(reflexivity)).
  unfold len in *. lia.
Qed.

(** X2. Whatever the column and the random source, a call writes at most
    three instructions, all addressed to the terminal column [idx+1] and
    to a row in [[1, height]]: nothing is ever drawn or erased off the
    screen rows. *)
Theorem frame_instructions_on_screen idx col height table w :
  exists new,
    written (snd (drawColumnFrame idx col height table w)) = written w ++ new /\
    (List.length new <= 3)%nat /\
    Forall (fun i => instr_col i = add idx 1 /\ 1 <= instr_row i <= height) new.
Proof.
  eexists. split; [apply drawColumnFrame_written | ].
  destruct (countingDown col); [split; [simpl; lia | constructor] | ].
  unfold frameInstrs.
  destruct (inWindow height (head (frameColumn col))) eqn:H1;
    destruct (inWindow height (sub (head (frameColumn col)) 1)) eqn:H2;
    destruct (negb (lastChar (frameColumn col) =? 0));
    destruct (inWindow height (sub (head (frameColumn col))
                                   (length (frameColumn col)))) eqn:H3;
    cbn [andb app List.length];
    (split; [lia | ]);
    repeat (constructor; [cbn [instr_col instr_row]; split;
                          [reflexivity | apply inWindow_spec; assumption] | ]);
    constructor.
Qed.

(** X3. Every glyph a call draws bold is a katakana of the character
    set; and if the column's [lastChar] is empty or a katakana, so are
    all glyphs the call draws and the [lastChar] it leaves. *)
Theorem frame_glyphs_from_charset idx col height table w col' w' :
  drawColumnFrame idx col height table w = (Ok col', w') ->
  exists new,
    written w' = written w ++ new /\
    (forall row c color g, In (DrawBold row c color g) new ->
       In g katakanaChars) /\
    (glyph_ok col ->
     glyph_ok col' /\
     forall g, In g (drawnGlyphs new) -> In g katakanaChars).
Proof.
  intros Hrun.
  pose proof (drawColumnFrame_written idx col height table w) as Hw.
  rewrite Hrun in Hw. cbn [snd] in Hw.
  eexists. split; [exact Hw | ].
  destruct (countingDown col) eqn:Hcd.
  - rewrite (drawColumnFrame_countdown idx col height table w Hcd) in Hrun.
    injection Hrun as <- _.
    split; [intros row c color g [] | ].
    intros Hok. split; [exact Hok | intros g []].
  - assert (Hlast : lastChar (frameColumn col) = lastChar col)
      by (unfold frameColumn; destruct (active col); reflexivity).
    assert (Hfg : glyph_ok col ->
                  frameGlyph (frameColumn col) height (rng w) = 0 \/
                  In (frameGlyph (frameColumn col) height (rng w))
                     katakanaChars).
    { intros Hok. unfold frameGlyph.
      destruct (inWindow height (head (frameColumn col))).
      - right. apply picked_glyph.
      - rewrite Hlast. exact Hok. }
    split.
    + intros row c color g Hin. unfold frameInstrs, frameGlyph in Hin.
      destruct (inWindow height (head (frameColumn col)));
        destruct (inWindow height (sub (head (frameColumn col)) 1)
                  && negb (lastChar (frameColumn col) =? 0));
        destruct (inWindow height (sub (head (frameColumn col))
                                       (length (frameColumn col))));
        cbn [app In] in Hin;
        repeat (destruct Hin as [Hin | Hin]; try discriminate);
        try contradiction;
        injection Hin as _ _ _ <-; apply picked_glyph.
    + intros Hok. split.
      * rewrite (drawColumnFrame_falling idx col height table w Hcd) in Hrun.
        cbv zeta in Hrun.
        destruct (head (frameColumn col)
                  >? add height (length (frameColumn col))).
        -- unfold resample, bind in Hrun.
           destruct (randIntn 10 _) as [[g | msg] w1]; [ | discriminate].
           destruct (randIntn (add (quot height 2) 1) w1) as [[l | msg] w2];
             [ | discriminate].
           destruct (randIntn (len table) w2) as [[c | msg] w3];
             [ | discriminate].
           destruct (checked_rem _ _ w3) as [[off | msg] w4]; [ | discriminate].
           unfold ret in Hrun. injection Hrun as <- _. left. reflexivity.
        -- injection Hrun as <- _. unfold glyph_ok. cbn [lastChar].
           apply Hfg, Hok.
      * intros g Hin. unfold frameInstrs, drawnGlyphs in Hin.
        destruct (inWindow height (head (frameColumn col))) eqn:Hwin;
          destruct (inWindow height (sub (head (frameColumn col)) 1));
          destruct (lastChar (frameColumn col) =? 0) eqn:Hz;
          destruct (inWindow height (sub (head (frameColumn col))
                                         (length (frameColumn col))));
          cbn [andb negb app flat_map In] in Hin;
          repeat (destruct Hin as [Hin | Hin]); try contradiction; subst g;
          try (unfold frameGlyph; rewrite Hwin; apply picked_glyph);
          (apply Z.eqb_neq in Hz; rewrite Hlast in *;
           destruct Hok as [Hok | Hok]; [contradiction | exact Hok]).
Qed.

Lemma frame_glyphs_from_charset_witness :
  exists new,
    written (mkWorld [19; 26; 33; 40; 47; 54]
               [DrawBold 7 4 "128;237;18" 65405;
                DrawDim 6 4 "153;222;7" 65393; Erase 2 4])
    = written sampleWorld ++ new /\
    (forall g, In g (drawnGlyphs new) -> In g katakanaChars).
Proof.
  destruct (frame_glyphs_from_charset 3 (mkColumn true 7 0 5 2 65393) 24
              sampleTable sampleWorld
              (mkColumn true 8 0 5 2 65405)
              (mkWorld [19; 26; 33; 40; 47; 54]
                 [DrawBold 7 4 "128;237;18" 65405;
                  DrawDim 6 4 "153;222;7" 65393; Erase 2 4]))
    as [new [Hw [_ Hok]]].
  - vm_compute. reflexivity.
  - exists new. split; [exact Hw | ].
    apply Hok. right. unfold katakanaChars. simpl. tauto.
Defined.

(** An active column that does not reach the Falling -> Gap block. *)
Lemma drawColumnFrame_goes_on idx col height table w :
  countingDown col = false ->
  (head (frameColumn col) >? add height (length (frameColumn col))) = false ->
  drawColumnFrame idx col height table w =
  (Ok (mkColumn true (add (head (frameColumn col)) 1) (gap (frameColumn col))
         (length (frameColumn col)) (colorOffset (frameColumn col))
         (frameGlyph (frameColumn col) height (rng w))),
   mkWorld (frameRng (frameColumn col) height (rng w))
     (written w ++ frameInstrs idx (frameColumn col) height table (rng w))).
Proof.
  intros Hcd Hres.
  rewrite (drawColumnFrame_falling idx col height table w Hcd). cbv zeta.
  rewrite Hres. reflexivity.
Qed.

Lemma frameColumn_fields (col : column) :
  length (frameColumn col) = length col /\
  colorOffset (frameColumn col) = colorOffset col /\
  lastChar (frameColumn col) = lastChar col /\
  gap (frameColumn col) = gap col /\
  active (frameColumn col) = true.
Proof.
  unfold frameColumn. destruct (active col) eqn:E; cbn; repeat split; exact E.
Qed.

(** X4. When a call draws the head at a row [h] of the screen (trail
    length positive, [height+length] an [int]), the next call on that
    column redraws row [h] dim with the same glyph and the same colour:
    the trail shows what the head showed. *)
Theorem trail_repaints_head idx col height table w w2 :
  countingDown col = false ->
  1 <= head (frameColumn col) <= height ->
  1 <= length col -> in_int height -> in_int (height + length col) ->
  exists col1 w1 glyph color new1 new2,
    drawColumnFrame idx col height table w = (Ok col1, w1) /\
    written w1 = written w ++ new1 /\
    In (DrawBold (head (frameColumn col)) (add idx 1) color glyph) new1 /\
    written (snd (drawColumnFrame idx col1 height table w2))
      = written w2 ++ new2 /\
    In (DrawDim (head (frameColumn col)) (add idx 1) color glyph) new2.
Proof.
  intros Hcd Hwin Hlen Hi Hfit.
  destruct (frameColumn_fields col) as [Fl [Fo [Fc [Fg Fa]]]].
  set (h := head (frameColumn col)) in *.
  assert (Hres : (h >? add height (length (frameColumn col))) = false).
  { rewrite Fl. unfold add. rewrite wrap_id by exact Hfit.
    destruct (Z.gtb_spec h (height + length col)); [lia | reflexivity]. }
  pose proof (drawColumnFrame_goes_on idx col height table w Hcd Hres) as E.
  fold h in E.
  assert (Hin : inWindow height h = true) by (apply inWindow_spec; exact Hwin).
  set (g := frameGlyph (frameColumn col) height (rng w)) in *.
  assert (Hg : In g katakanaChars).
  { unfold g, frameGlyph. fold h. rewrite Hin. apply picked_glyph. }
  assert (Hnext : add h 1 = h + 1) by (apply wrap_id; int_range; lia).
  eexists. eexists. exists g.
  exists (rainbowColor table (add h (colorOffset col))).
  eexists. eexists.
  split; [exact E | ]. split; [reflexivity | ].
  split.
  { unfold frameInstrs. fold h. rewrite Hin. rewrite Fo. left. reflexivity. }
  split; [apply drawColumnFrame_written | ].
  match goal with
  | |- In _ (if countingDown ?c then _ else _) => set (col1 := c)
  end.
  change (countingDown col1) with false. cbv iota.
  change (frameColumn col1) with col1.
  unfold frameInstrs, col1. cbn [head lastChar colorOffset length].
  rewrite Hnext. unfold sub at 1 2 3.
  replace (h + 1 - 1) with h by lia.
  rewrite (wrap_id h) by (int_range; lia).
  rewrite Hin. rewrite Fo.
  assert (Hnz : (g =? 0) = false)
    by (apply Z.eqb_neq, katakana_nonzero, Hg).
  rewrite Hnz. cbn [negb andb].
  apply in_or_app. right. apply in_or_app. left. left. reflexivity.
Qed.

Lemma trail_repaints_head_witness :
  exists col1 w1 glyph color new1 new2,
    drawColumnFrame 3 (mkColumn true 7 0 5 2 65393) 24 sampleTable sampleWorld
      = (Ok col1, w1) /\
    written w1 = written sampleWorld ++ new1 /\
    In (DrawBold 7 (add 3 1) color glyph) new1 /\
    written (snd (drawColumnFrame 3 col1 24 sampleTable sampleWorld))
      = written sampleWorld ++ new2 /\
    In (DrawDim 7 (add 3 1) color glyph) new2.
Proof.
  apply (trail_repaints_head 3 (mkColumn true 7 0 5 2 65393) 24 sampleTable
           sampleWorld sampleWorld);
    simpl; try reflexivity; try lia; int_range; lia.
Defined.

(** X5. Colour offsets stay indices of the table.  For a height that is
    an [int], a table of at most [2^62] entries and [height + len table]
    within [int]: if [colorOffset] lies in [[0, len table)] before a call
    that returns without panic, it does so after it; and the colour of
    every glyph the call draws at a row is the table entry at
    [(row + colorOffset) mod len table], so during a stream the colour of
    a cell depends on its row only. *)
Theorem colorOffset_stays_index idx col height table w col' w' :
  in_int height -> in_int (height + len table) -> len table <= 2 ^ 62 ->
  0 <= colorOffset col < len table ->
  drawColumnFrame idx col height table w = (Ok col', w') ->
  0 <= colorOffset col' < len table /\
  exists new,
    written w' = written w ++ new /\
    forall i, In i new ->
      match i with
      | DrawBold row _ color _ | DrawDim row _ color _ =>
          color = nth (Z.to_nat ((row + colorOffset col) mod len table))
                      table ""%string
      | Erase _ _ => True
      end.
Proof.
  intros Hi Hfit Hlen Hoff Hrun.
  assert (Hne : table <> []).
  { intros ->. unfold len in Hoff. simpl in Hoff. lia. }
  pose proof (drawColumnFrame_written idx col height table w) as Hw.
  rewrite Hrun in Hw. cbn [snd] in Hw.
  destruct (frameColumn_fields col) as [Fl [Fo [Fc [Fg Fa]]]].
  split.
  - destruct (countingDown col) eqn:Hcd.
    + rewrite (drawColumnFrame_countdown idx col height table w Hcd) in Hrun.
      injection Hrun as <- _. exact Hoff.
    + rewrite (drawColumnFrame_falling idx col height table w Hcd) in Hrun.
      cbv zeta in Hrun.
      destruct (head (frameColumn col)
                >? add height (length (frameColumn col))).
      * unfold resample, bind in Hrun.
        destruct (randIntn 10 _) as [[g | msg] w1]; [ | discriminate].
        destruct (randIntn (add (quot height 2) 1) w1) as [[l | msg] w2];
          [ | discriminate].
        unfold randIntn at 1 in Hrun.
        destruct (Intn_ok (len table) (rng w2) (len_pos table Hne)) as [E3 B3].
        rewrite E3 in Hrun.
        unfold checked_rem in Hrun.
        destruct (Z.eqb_spec (len table) 0) as [Ez | _]; [lia | ].
        unfold ret in Hrun. injection Hrun as <- _.
        cbn [colorOffset]. rewrite Fo. unfold add, rem.
        rewrite wrap_id by (int_range; lia).
        apply Z.rem_bound_pos; lia.
      * injection Hrun as <- _. cbn [colorOffset]. rewrite Fo. exact Hoff.
  - eexists. split; [exact Hw | ].
    destruct (countingDown col); [intros i [] | ].
    assert (Hcolor : forall row, inWindow height row = true ->
              rainbowColor table (add row (colorOffset (frameColumn col))) =
              nth (Z.to_nat ((row + colorOffset col) mod len table))
                  table ""%string).
    { intros row Hrow. apply inWindow_spec in Hrow.
      rewrite Fo. unfold add. rewrite wrap_id by (int_range; lia).
      apply rainbowColor_mod, Hne. }
    intros i Hin. unfold frameInstrs in Hin.
    destruct (inWindow height (head (frameColumn col))) eqn:H1;
      destruct (inWindow height (sub (head (frameColumn col)) 1)) eqn:H2;
      destruct (negb (lastChar (frameColumn col) =? 0));
      destruct (inWindow height (sub (head (frameColumn col))
                                     (length (frameColumn col))));
      cbn [andb app In] in Hin;
      repeat (destruct Hin as [Hin | Hin]); try contradiction; subst i;
      try exact I; apply Hcolor; assumption.
Qed.

Lemma colorOffset_stays_index_witness :
  0 <= colorOffset (mkColumn true 8 0 5 2 65405) < len sampleTable.
Proof.
  apply (colorOffset_stays_index 3 (mkColumn true 7 0 5 2 65393) 24
           sampleTable sampleWorld (mkColumn true 8 0 5 2 65405)
           (mkWorld [19; 26; 33; 40; 47; 54]
              [DrawBold 7 4 "128;237;18" 65405;
               DrawDim 6 4 "153;222;7" 65393; Erase 2 4]));
    try (int_range; vm_compute; intuition discriminate);
    try (vm_compute; intuition discriminate).
Defined.

(** ** A tick: every column advanced once *)

Lemma drawColumns_ok (height : Z) (table : list string) :
  in_int height -> -1 <= height -> table <> [] ->
  forall columns idx w,
  exists columns' w',
    drawColumns idx columns height table w = (Ok columns', w') /\
    List.length columns' = List.length columns.
Proof.
  intros Hi Hh Hne. induction columns as [ | c cols IH]; intros idx w.
  - exists [], w. split; reflexivity.
  - cbn [drawColumns]. unfold bind at 1.
    destruct (drawColumnFrame_ok idx c height table w Hi Hh Hne)
      as [c' [w1 E]].
    rewrite E. unfold bind at 1.
    destruct (IH (add idx 1) w1) as [cols' [w2 [E2 Hl]]].
    rewrite E2. unfold ret.
    eexists. eexists. split; [reflexivity | ]. simpl. rewrite Hl. reflexivity.
Qed.

(** What a successful tick did to the column at each index. *)
Lemma drawColumns_nth (height : Z) (table : list string) :
  forall columns idx w columns' w',
    0 <= idx -> in_int (idx + len columns + 1) ->
    drawColumns idx columns height table w = (Ok columns', w') ->
    forall (k : nat) (c : column),
      nth_error columns k = Some c ->
      exists c' new,
        nth_error columns' k = Some c' /\
        frameStep (idx + Z.of_nat k) height table c new c'.
Proof.
  induction columns as [ | c0 cols IH];
    intros idx w columns' w' Hidx Hfit Hrun k c Hk.
  - destruct k; discriminate.
  - cbn [drawColumns] in Hrun. unfold bind at 1 in Hrun.
    destruct (drawColumnFrame idx c0 height table w) as [[c0' | msg] w1] eqn:E;
      [ | discriminate].
    unfold bind at 1 in Hrun.
    assert (Hlen : len (c0 :: cols) = len cols + 1)
      by (unfold len; cbn [List.length]; lia).
    assert (Hlen0 : 0 <= len cols) by (unfold len; lia).
    rewrite Hlen in Hfit.
    assert (Hnext : add idx 1 = idx + 1) by (apply wrap_id; int_range; lia).
    rewrite Hnext in Hrun.
    destruct (drawColumns (idx + 1) cols height table w1)
      as [[cols' | msg] w2] eqn:E2; [ | discriminate].
    unfold ret in Hrun. injection Hrun as <- <-.
    destruct k as [ | k].
    + cbn in Hk. injection Hk as <-.
      pose proof (drawColumnFrame_written idx c0 height table w) as Hw1.
      rewrite E in Hw1. cbn [snd] in Hw1.
      eexists. eexists. split; [reflexivity | ].
      rewrite Z.add_0_r. exists w, w1. split; [exact E | exact Hw1].
    + cbn in Hk.
      destruct (IH (idx + 1) w1 cols' w2 ltac:(lia) ltac:(int_range; lia)
                  E2 k c Hk) as [c' [new [Hn Hs]]].
      exists c', new. split; [exact Hn | ].
      replace (idx + Z.of_nat (S k)) with (idx + 1 + Z.of_nat k) by lia.
      exact Hs.
Qed.

Lemma runFrames_ok (height : Z) (table : list string) :
  in_int height -> -1 <= height -> table <> [] ->
  forall n columns w,
  exists columns' w',
    runFrames n columns height table w = (Ok columns', w') /\
    List.length columns' = List.length columns.
Proof.
  intros Hi Hh Hne. induction n as [ | n IH]; intros columns w.
  - exists columns, w. split; reflexivity.
  - cbn [runFrames]. unfold bind at 1.
    destruct (drawColumns_ok height table Hi Hh Hne columns 0 w)
      as [cols1 [w1 [E Hl]]].
    rewrite E. destruct (IH cols1 w1) as [cols2 [w2 [E2 Hl2]]].
    exists cols2, w2. split; [exact E2 | congruence].
Qed.

(** What [n] successful ticks did to the column at each index. *)
Lemma runFrames_nth (height : Z) (table : list string) :
  in_int height -> -1 <= height -> table <> [] ->
  forall n columns w columns' w',
    in_int (len columns + 1) ->
    runFrames n columns height table w = (Ok columns', w') ->
    forall (k : nat) (c : column),
      nth_error columns k = Some c ->
      exists c' new,
        nth_error columns' k = Some c' /\
        frameSteps n (Z.of_nat k) height table c new c'.
Proof.
  intros Hi Hh Hne.
  induction n as [ | n IH]; intros columns w columns' w' Hfit Hrun k c Hk.
  - cbn in Hrun. injection Hrun as <- <-.
    exists c, []. split; [exact Hk | split; reflexivity].
  - cbn [runFrames] in Hrun. unfold bind at 1 in Hrun.
    destruct (drawColumns_ok height table Hi Hh Hne columns 0 w)
      as [cols1 [w1 [E Hl]]].
    rewrite E in Hrun.
    destruct (drawColumns_nth height table columns 0 w cols1 w1
                ltac:(lia) Hfit E k c Hk) as [c1 [new1 [Hk1 Hs1]]].
    assert (Hlen : len cols1 = len columns) by (unfold len; congruence).
    destruct (IH cols1 w1 columns' w' ltac:(rewrite Hlen; exact Hfit)
                Hrun k c1 Hk1) as [c' [new2 [Hk' Hs2]]].
    exists c', (new1 ++ new2). split; [exact Hk' | ].
    cbn [frameSteps]. exists c1, new1, new2.
    rewrite Z.add_0_l in Hs1. repeat split; assumption.
Qed.

(** ** The trail window on the screen *)

Lemma frameStep_written idx height table c new c' :
  frameStep idx height table c new c' ->
  exists w w',
    drawColumnFrame idx c height table w = (Ok c', w') /\
    new = if countingDown c then []
          else frameInstrs idx (frameColumn c) height table (rng w).
Proof.
  intros [w [w' [E Hw]]]. exists w, w'. split; [exact E | ].
  pose proof (drawColumnFrame_written idx c height table w) as Hw1.
  rewrite E in Hw1. cbn [snd] in Hw1. rewrite Hw in Hw1.
  apply app_inv_head in Hw1. exact Hw1.
Qed.

Lemma paintAll_app (scr : Screen) (l1 l2 : list Instr) :
  paintAll scr (l1 ++ l2) = paintAll (paintAll scr l1) l2.
Proof. unfold paintAll. apply fold_left_app. Qed.

(** Instructions for other terminal columns leave a column as it is. *)
Lemma paintAll_other_column (l : list Instr) :
  forall (scr : Screen) (row col : Z),
    Forall (fun i => instr_col i <> col) l ->
    paintAll scr l row col = scr row col.
Proof.
  induction l as [ | i l IH]; intros scr row col HF; [reflexivity | ].
  inversion HF as [ | ? ? Hi Hl]; subst.
  cbn [paintAll fold_left]. fold (paintAll (paint scr i) l).
  rewrite IH by exact Hl. unfold paint.
  destruct (Z.eqb_spec col (instr_col i)) as [Heq | _]; [congruence | ].
  rewrite andb_false_r. reflexivity.
Qed.

Lemma frameInstrs_column idx fc height table r :
  Forall (fun i => instr_col i = add idx 1) (frameInstrs idx fc height table r).
Proof.
  unfold frameInstrs.
  destruct (inWindow height (head fc));
    destruct (inWindow height (sub (head fc) 1) && negb (lastChar fc =? 0));
    destruct (inWindow height (sub (head fc) (length fc)));
    cbn [app]; repeat constructor.
Qed.

(** The lit rows after the drawing part of a frame whose head is [h]:
    the window moves down by one row. *)
Lemma frameInstrs_window idx fc height table r (scr : Screen) :
  in_int (idx + 1) -> 0 <= height <= 2 ^ 62 ->
  1 <= head fc <= height + length fc + 1 -> 1 <= length fc <= 2 ^ 61 + 3 ->
  (forall row, scr row (idx + 1) <> None <->
               (1 <= row <= height /\
                head fc - length fc <= row <= head fc - 1)) ->
  forall row,
    paintAll scr (frameInstrs idx fc height table r) row (idx + 1) <> None <->
    (1 <= row <= height /\ head fc + 1 - length fc <= row <= head fc).
Proof.
  intros Hidx Hh Hhead Hlen Hscr row.
  specialize (Hscr row).
  assert (Hcol : add idx 1 = idx + 1) by (apply wrap_id, Hidx).
  assert (Hs1 : sub (head fc) 1 = head fc - 1)
    by (apply wrap_id; int_range; lia).
  assert (Hs2 : sub (head fc) (length fc) = head fc - length fc)
    by (apply wrap_id; int_range; lia).
  unfold frameInstrs. rewrite Hcol, Hs1, Hs2.
  assert (Hg : frameGlyph fc height r <> 0 \/ inWindow height (head fc) = false).
  { destruct (inWindow height (head fc)) eqn:Hw; [left | right; reflexivity].
    unfold frameGlyph. rewrite Hw. apply katakana_nonzero, picked_glyph. }
  destruct (inWindow height (head fc)) eqn:H1;
    destruct (inWindow height (head fc - 1)) eqn:H2;
    destruct (negb (lastChar fc =? 0));
    destruct (inWindow height (head fc - length fc)) eqn:H3;
    cbn [andb app paintAll fold_left];
    unfold paint; cbn [instr_row instr_col];
    rewrite ?Z.eqb_refl, ?andb_true_r;
    try (apply inWindow_spec in H1);
    try (apply inWindow_spec in H2);
    try (apply inWindow_spec in H3);
    try (assert (~ 1 <= head fc <= height)
           by (rewrite <- inWindow_spec; congruence));
    try (assert (~ 1 <= head fc - 1 <= height)
           by (rewrite <- inWindow_spec; congruence));
    try (assert (~ 1 <= head fc - length fc <= height)
           by (rewrite <- inWindow_spec; congruence));
    repeat match goal with
           | |- context [row =? ?x] => destruct (Z.eqb_spec row x)
           end;
    try (split; [intros _; lia | intros _; discriminate]);
    try (split; [intros Hn; exfalso; apply Hn; reflexivity | intros; lia]);
    try (rewrite Hscr; lia).
Qed.

(** One call keeps the trail window of its column, the invariant of the
    column, and every other terminal column. *)
Lemma frameStep_trail_window idx height table c new c' (scr : Screen) :
  in_int (idx + 1) -> 0 <= height <= 2 ^ 62 -> table <> [] ->
  column_inv height c ->
  frameStep idx height table c new c' ->
  trail_window idx height c scr ->
  trail_window idx height c' (paintAll scr new) /\
  column_inv height c' /\
  (forall row col, col <> idx + 1 -> paintAll scr new row col = scr row col).
Proof.
  intros Hidx Hh Hne Hinv Hstep Hwin.
  destruct (frameStep_written idx height table c new c' Hstep)
    as [w [w' [E Hnew]]].
  assert (Hinv' : column_inv height c').
  { destruct (drawColumnFrame_inv idx c height table w Hh Hne Hinv)
      as [c2 [w2 [E2 I2]]].
    rewrite E in E2. injection E2 as <- _. exact I2. }
  destruct Hinv as [Hl [Hg [Ha Hi]]].
  destruct (quot_2_bounds height ltac:(lia)) as [Q0 [Q1 Q2]].
  split; [ | split; [exact Hinv' | ]].
  - destruct (countingDown c) eqn:Hcd.
    + subst new.
      rewrite (drawColumnFrame_countdown idx c height table w Hcd) in E.
      injection E as <- _. exact Hwin.
    + subst new.
      destruct (frameColumn_fields c) as [Fl [Fo [Fc [Fg Fa]]]].
      assert (Hhead : 1 <= head (frameColumn c)
                        <= height + length (frameColumn c) + 1).
      { rewrite Fl. unfold frameColumn. destruct (active c).
        - apply Ha. reflexivity.
        - cbn [head]. lia. }
      assert (Hpre : forall row,
                scr row (idx + 1) <> None <->
                (1 <= row <= height /\
                 head (frameColumn c) - length (frameColumn c) <= row
                   <= head (frameColumn c) - 1)).
      { intros row. rewrite (Hwin row). rewrite Fl.
        unfold frameColumn. destruct (active c) eqn:Hact.
        - intuition.
        - cbn [head]. split; [intros [Habs _]; discriminate | lia]. }
      pose proof (frameInstrs_window idx (frameColumn c) height table (rng w)
                    scr Hidx Hh Hhead ltac:(rewrite Fl; lia) Hpre) as Hpost.
      rewrite (drawColumnFrame_falling idx c height table w Hcd) in E.
      cbv zeta in E.
      unfold add at 1 in E. rewrite wrap_id in E by (rewrite Fl; int_range; lia).
      destruct (Z.gtb_spec (head (frameColumn c))
                  (height + length (frameColumn c))) as [Hres | Hgo].
      * destruct (resample_ok height (colorOffset (frameColumn c)) table
                    (mkWorld (frameRng (frameColumn c) height (rng w))
                       (written w ++
                        frameInstrs idx (frameColumn c) height table (rng w)))
                    ltac:(int_range; lia) ltac:(lia) Hne)
          as [g [l [c0 [_ [_ [_ R]]]]]].
        rewrite R in E. injection E as <- _.
        intros row. rewrite (Hpost row). cbn [active].
        split; [lia | intros [Habs _]; discriminate].
      * injection E as <- _.
        intros row. rewrite (Hpost row). cbn [active head length].
        unfold add. rewrite wrap_id by (rewrite Fl in *; int_range; lia).
        intuition lia.
  - intros row col Hcol. apply paintAll_other_column.
    subst new. destruct (countingDown c); [constructor | ].
    eapply Forall_impl; [ | apply frameInstrs_column].
    intros i Hi'. cbn beta in Hi'. rewrite Hi'.
    unfold add. rewrite wrap_id by exact Hidx. congruence.
Qed.

(** A tick keeps the trail windows of all columns. *)
Lemma drawColumns_trail_windows (height : Z) (table : list string) :
  0 <= height <= 2 ^ 62 -> table <> [] ->
  forall columns idx w columns' w' (scr : Screen),
    0 <= idx -> in_int (idx + len columns + 1) ->
    Forall (column_inv height) columns ->
    screen_inv idx height columns scr ->
    drawColumns idx columns height table w = (Ok columns', w') ->
    exists new,
      written w' = written w ++ new /\
      screen_inv idx height columns' (paintAll scr new) /\
      Forall (column_inv height) columns' /\
      List.length columns' = List.length columns /\
      (forall row col, col <= idx \/ idx + len columns < col ->
                       paintAll scr new row col = scr row col).
Proof.
  intros Hh Hne.
  induction columns as [ | c cols IH];
    intros idx w columns' w' scr Hidx Hfit HF Hscr Hrun.
  - cbn in Hrun. injection Hrun as <- <-.
    exists []. rewrite app_nil_r.
    split; [reflexivity | ]. split; [exact Hscr | ]. split; [constructor | ].
    split; reflexivity.
  - cbn [drawColumns] in Hrun. unfold bind at 1 in Hrun.
    destruct (drawColumnFrame idx c height table w) as [[c' | msg] w1] eqn:E;
      [ | discriminate].
    unfold bind at 1 in Hrun.
    assert (Hlen : len (c :: cols) = len cols + 1)
      by (unfold len; cbn [List.length]; lia).
    assert (Hlen0 : 0 <= len cols) by (unfold len; lia).
    rewrite Hlen in Hfit.
    assert (Hnext : add idx 1 = idx + 1) by (apply wrap_id; int_range; lia).
    rewrite Hnext in Hrun.
    destruct (drawColumns (idx + 1) cols height table w1)
      as [[cols' | msg] w2] eqn:E2; [ | discriminate].
    unfold ret in Hrun. injection Hrun as <- <-.
    inversion HF as [ | ? ? Hc Hcols]; subst.
    pose proof (drawColumnFrame_written idx c height table w) as Hw1.
    rewrite E in Hw1. cbn [snd] in Hw1.
    set (new1 := if countingDown c then []
                 else frameInstrs idx (frameColumn c) height table (rng w)) in *.
    assert (Hstep : frameStep idx height table c new1 c')
      by (exists w, w1; split; [exact E | exact Hw1]).
    assert (Hwin0 : trail_window idx height c scr).
    { specialize (Hscr 0%nat c eq_refl). rewrite Z.add_0_r in Hscr. exact Hscr. }
    destruct (frameStep_trail_window idx height table c new1 c' scr
                ltac:(int_range; lia) Hh Hne Hc Hstep Hwin0)
      as [Hwin1 [Hinv1 Hframe1]].
    assert (Hscr1 : screen_inv (idx + 1) height cols (paintAll scr new1)).
    { intros k ck Hk row.
      rewrite Hframe1 by lia.
      specialize (Hscr (S k) ck Hk row).
      replace (idx + Z.of_nat (S k)) with (idx + 1 + Z.of_nat k) in Hscr by lia.
      exact Hscr. }
    destruct (IH (idx + 1) w1 cols' w2 (paintAll scr new1)
                ltac:(lia) ltac:(int_range; lia) Hcols Hscr1 E2)
      as [new2 [Hw2 [Hscr2 [HF2 [Hl2 Hframe2]]]]].
    exists (new1 ++ new2).
    split; [rewrite Hw2, Hw1, <- app_assoc; reflexivity | ].
    rewrite paintAll_app.
    split; [ | split; [constructor; assumption | split]].
    + intros [ | k] ck Hk row.
      * cbn in Hk. injection Hk as <-. rewrite Z.add_0_r.
        rewrite Hframe2 by (left; lia). apply Hwin1.
      * cbn in Hk. specialize (Hscr2 k ck Hk row).
        replace (idx + Z.of_nat (S k)) with (idx + 1 + Z.of_nat k) by lia.
        exact Hscr2.
    + cbn [List.length]. congruence.
    + intros row col Hcol. rewrite Hlen in Hcol.
      rewrite Hframe2 by lia. apply Hframe1. lia.
Qed.

(** Any number of frames keeps the trail windows of all columns. *)
Lemma frames_window_helper (n : nat) (height : Z) (table : list string) :
  0 <= height <= 2 ^ 62 -> table <> [] ->
  forall columns w columns' w' (scr : Screen),
    in_int (len columns + 1) ->
    Forall (column_inv height) columns ->
    screen_inv 0 height columns scr ->
    runFrames n columns height table w = (Ok columns', w') ->
    exists new,
      written w' = written w ++ new /\
      screen_inv 0 height columns' (paintAll scr new) /\
      Forall (column_inv height) columns' /\
      List.length columns' = List.length columns /\
      (forall row col, col <= 0 \/ len columns < col ->
                       paintAll scr new row col = scr row col).
Proof.
  intros Hh Hne. induction n as [ | n IH];
    intros columns w columns' w' scr Hfit HF Hscr Hrun.
  - cbn in Hrun. injection Hrun as <- <-.
    exists []. rewrite app_nil_r.
    split; [reflexivity | ]. split; [exact Hscr | ]. split; [exact HF | ].
    split; reflexivity.
  - cbn [runFrames] in Hrun. unfold bind at 1 in Hrun.
    destruct (drawColumns 0 columns height table w)
      as [[cols1 | msg] w1] eqn:E; [ | discriminate].
    destruct (drawColumns_trail_windows height table Hh Hne columns 0 w
                cols1 w1 scr ltac:(lia) Hfit HF Hscr E)
      as [new1 [Hw1 [Hscr1 [HF1 [Hl1 Hframe1]]]]].
    assert (Hlen : len cols1 = len columns) by (unfold len; congruence).
    destruct (IH cols1 w1 columns' w' (paintAll scr new1)
                ltac:(rewrite Hlen; exact Hfit) HF1 Hscr1 Hrun)
      as [new2 [Hw2 [Hscr2 [HF2 [Hl2 Hframe2]]]]].
    exists (new1 ++ new2).
    split; [rewrite Hw2, Hw1, <- app_assoc; reflexivity | ].
    rewrite paintAll_app.
    split; [exact Hscr2 | ]. split; [exact HF2 | ].
    split; [congruence | ].
    intros row col Hcol. rewrite Hframe2 by (rewrite Hlen; exact Hcol).
    apply Hframe1. lia.
Qed.

(** X6. The frame loop keeps the screen consistent with the columns.  On
    a terminal of at most [2^62] rows with a non-empty table, let the
    columns satisfy the column invariant and let every terminal column
    show exactly the trail window of its stream (rows [head-length ..
    head-1] that are on the screen; nothing for a column in the gap).
    Then after any number of frames without a panic the same holds, the
    number of columns is unchanged, and no cell outside the terminal
    columns [1 .. numColumns] was touched. *)
Theorem frames_keep_trail_windows (n : nat) (height : Z) (table : list string) :
  0 <= height <= 2 ^ 62 -> table <> [] ->
  forall columns w columns' w' (scr : Screen),
    in_int (len columns + 1) ->
    Forall (column_inv height) columns ->
    screen_inv 0 height columns scr ->
    runFrames n columns height table w = (Ok columns', w') ->
    exists new,
      written w' = written w ++ new /\
      screen_inv 0 height columns' (paintAll scr new) /\
      Forall (column_inv height) columns' /\
      List.length columns' = List.length columns /\
      (forall row col, col <= 0 \/ len columns < col ->
                       paintAll scr new row col = scr row col).
Proof.
  intros Hh Hne columns w columns' w' scr Hfit HF Hscr Hrun.
  exact (frames_window_helper n height table Hh Hne columns w columns' w'
           scr Hfit HF Hscr Hrun).
Qed.

Lemma frames_keep_trail_windows_witness :
  exists columns' w' new,
    runFrames 3 [mkColumn false 0 0 5 2 0; mkColumn false 0 2 4 1 0] 24
      sampleTable sampleWorld = (Ok columns', w') /\
    written w' = written sampleWorld ++ new /\
    screen_inv 0 24 columns' (paintAll blank new).
Proof.
  destruct (runFrames 3 [mkColumn false 0 0 5 2 0; mkColumn false 0 2 4 1 0]
              24 sampleTable sampleWorld) as [[columns' | msg] w'] eqn:E;
    [ | vm_compute in E; discriminate].
  destruct (frames_keep_trail_windows 3 24 sampleTable
              ltac:(lia) ltac:(discriminate)
              [mkColumn false 0 0 5 2 0; mkColumn false 0 2 4 1 0]
              sampleWorld columns' w' blank)
    as [new [Hw [Hscr _]]].
  - vm_compute. split; discriminate.
  - repeat constructor; cbn; try lia; try discriminate;
      change (Z.quot 24 2) with 12; lia.
  - intros k c Hk row. unfold blank. split.
    + intros Habs. exfalso. apply Habs. reflexivity.
    + intros [Hact _]. exfalso.
      destruct k as [ | [ | k]]; cbn in Hk;
        [injection Hk as <- | injection Hk as <- | destruct k; discriminate];
        discriminate.
  - exact E.
  - exists columns', w', new. split; [reflexivity | split; assumption].
Defined.

(** ** The life of a column over the frames *)

(** A waiting column only counts down. *)
Lemma steps_countdown idx height table :
  forall (n : nat) c new c',
    active c = false -> in_int (gap c) -> Z.of_nat n <= gap c ->
    frameSteps n idx height table c new c' ->
    new = [] /\
    c' = mkColumn false (head c) (gap c - Z.of_nat n) (length c)
                  (colorOffset c) (lastChar c).
Proof.
  induction n as [ | n IH]; intros c new c' Hact Hint Hn Hsteps.
  - destruct Hsteps as [-> ->]. split; [reflexivity | ].
    destruct c; cbn in *. subst. f_equal. lia.
  - destruct Hsteps as [c1 [new1 [new2 [Hstep [Hrest ->]]]]].
    assert (Hcd : countingDown c = true).
    { unfold countingDown. rewrite Hact. apply Z.gtb_lt. lia. }
    destruct (frameStep_written idx height table c new1 c1 Hstep)
      as [w [w' [E Hnew]]].
    rewrite Hcd in Hnew. subst new1.
    rewrite (drawColumnFrame_countdown idx c height table w Hcd) in E.
    injection E as <- _.
    unfold sub in Hrest. rewrite wrap_id in Hrest by (int_range; lia).
    rewrite Hact in Hrest.
    apply IH in Hrest; [ | reflexivity | cbn; int_range; lia | cbn; lia].
    destruct Hrest as [-> ->].
    split; [reflexivity | ]. cbn. f_equal. lia.
Qed.

(** A falling column moves its head down one row per frame as long as the
    head has not passed [height+length]. *)
Lemma steps_falling idx height table :
  forall (n : nat) c new c',
    active c = true -> in_int (head c) ->
    in_int (height + length c + 1) ->
    head c + Z.of_nat n <= height + length c + 1 ->
    frameSteps n idx height table c new c' ->
    exists g,
      c' = mkColumn true (head c + Z.of_nat n) (gap c) (length c)
                    (colorOffset c) g.
Proof.
  induction n as [ | n IH]; intros c new c' Hact Hint Hfit Hn Hsteps.
  - destruct Hsteps as [-> _]. exists (lastChar c).
    destruct c; cbn in *. subst. f_equal. lia.
  - destruct Hsteps as [c1 [new1 [new2 [Hstep [Hrest _]]]]].
    destruct (frameStep_written idx height table c new1 c1 Hstep)
      as [w [w' [E _]]].
    rewrite (drawColumnFrame_goes_on idx c height table w
               (countingDown_active c Hact)) in E.
    + rewrite (frameColumn_active c Hact) in E. injection E as <- _.
      unfold add in Hrest. rewrite wrap_id in Hrest by (int_range; lia).
      apply IH in Hrest;
        [ | reflexivity | cbn; int_range; lia | cbn; exact Hfit | cbn; lia].
      destruct Hrest as [g ->].
      exists g. cbn. f_equal. lia.
    + rewrite (frameColumn_active c Hact). unfold add.
      rewrite wrap_id by (int_range; lia).
      destruct (Z.gtb_spec (head c) (height + length c)); [lia | reflexivity].
Qed.

(** The frame after the head has passed [height+length] ends the stream. *)
Lemma step_reset idx height table c new c' :
  active c = true -> in_int height -> -1 <= height -> table <> [] ->
  in_int (height + length c) -> height + length c < head c ->
  frameStep idx height table c new c' ->
  active c' = false /\ head c' = 0 /\ lastChar c' = 0 /\ sampled_ok height c'.
Proof.
  intros Hact Hi Hh Hne Hfit Hpast Hstep.
  destruct (frameStep_written idx height table c new c' Hstep)
    as [w [w' [E _]]].
  rewrite (drawColumnFrame_falling idx c height table w
             (countingDown_active c Hact)) in E.
  cbv zeta in E. rewrite (frameColumn_active c Hact) in E.
  unfold add at 1 in E. rewrite wrap_id in E by exact Hfit.
  destruct (Z.gtb_spec (head c) (height + length c)); [ | lia].
  destruct (resample_ok height (colorOffset c) table
              (mkWorld (frameRng c height (rng w))
                 (written w ++ frameInstrs idx c height table (rng w)))
              Hi Hh Hne) as [g [l [c0 [Bg [Bl [_ R]]]]]].
  rewrite R in E. injection E as <- _.
  unfold sampled_ok. cbn. repeat split; lia.
Qed.

(** X7. On a terminal height of at least -1 with a non-empty rainbow
    table the frame loop never panics: any number of frames on any
    columns, with any random source, returns as many columns as it was
    given. *)
Theorem frame_loop_never_panics (n : nat) (columns : list column)
    (height : Z) (table : list string) (w : World) :
  in_int height -> -1 <= height -> table <> [] ->
  exists columns' w',
    runFrames n columns height table w = (Ok columns', w') /\
    len columns' = len columns.
Proof.
  intros Hi Hh Hne.
  destruct (runFrames_ok height table Hi Hh Hne n columns w)
    as [cols' [w' [E Hl]]].
  exists cols', w'. split; [exact E | unfold len; congruence].
Qed.

Lemma frame_loop_never_panics_witness :
  exists columns' w',
    runFrames 40 [zeroColumn; mkColumn true 7 0 5 2 65393] 24 sampleTable
      sampleWorld = (Ok columns', w') /\
    len columns' = 2.
Proof.
  apply (frame_loop_never_panics 40 [zeroColumn; mkColumn true 7 0 5 2 65393]
           24 sampleTable sampleWorld);
    [int_range; lia | lia | discriminate].
Defined.

(** X8. A column waiting in the gap with countdown [gap >= n] is, after
    [n] frames of the loop, the same column with [gap] lowered by [n]:
    it stays inactive at head 0 and keeps its length, colour offset and
    glyph, whatever the other columns and the random source do. *)
Theorem waiting_column_counts_down (n k : nat) (columns columns' : list column)
    (height : Z) (table : list string) (w w' : World) (c : column) :
  in_int height -> -1 <= height -> table <> [] ->
  in_int (len columns + 1) ->
  nth_error columns k = Some c ->
  active c = false -> in_int (gap c) -> Z.of_nat n <= gap c ->
  runFrames n columns height table w = (Ok columns', w') ->
  nth_error columns' k =
  Some (mkColumn false (head c) (gap c - Z.of_nat n) (length c)
                 (colorOffset c) (lastChar c)).
Proof.
  intros Hi Hh Hne Hfit Hk Hact Hint Hn Hrun.
  destruct (runFrames_nth height table Hi Hh Hne n columns w columns' w'
              Hfit Hrun k c Hk) as [c' [new [Hk' Hsteps]]].
  destruct (steps_countdown _ _ _ n c new c' Hact Hint Hn Hsteps) as [_ ->].
  exact Hk'.
Qed.

Lemma waiting_column_counts_down_witness :
  exists columns' w',
    runFrames 4 [mkColumn true 7 0 5 2 65393; mkColumn false 0 6 4 1 0] 24
      sampleTable sampleWorld = (Ok columns', w') /\
    nth_error columns' 1 = Some (mkColumn false 0 2 4 1 0).
Proof.
  destruct (runFrames 4 [mkColumn true 7 0 5 2 65393; mkColumn false 0 6 4 1 0]
              24 sampleTable sampleWorld) as [[columns' | msg] w'] eqn:E;
    [ | vm_compute in E; discriminate].
  exists columns', w'. split; [reflexivity | ].
  apply (waiting_column_counts_down 4 1
           [mkColumn true 7 0 5 2 65393; mkColumn false 0 6 4 1 0] columns'
           24 sampleTable sampleWorld w' (mkColumn false 0 6 4 1 0));
    [int_range; lia | lia | discriminate | vm_compute; split; discriminate
    | reflexivity | reflexivity | vm_compute; split; discriminate
    | vm_compute; discriminate | exact E].
Defined.

Lemma frameSteps_last idx height table :
  forall (n : nat) c new c',
    frameSteps (S n) idx height table c new c' ->
    exists c1 new1 new2,
      frameSteps n idx height table c new1 c1 /\
      frameStep idx height table c1 new2 c' /\
      new = new1 ++ new2.
Proof.
  induction n as [ | n IH]; intros c new c' Hsteps.
  - destruct Hsteps as [c1 [new1 [new2 [Hstep [[-> ->] ->]]]]].
    exists c, [], new1. rewrite app_nil_r.
    split; [split; reflexivity | split; [exact Hstep | reflexivity]].
  - destruct Hsteps as [c1 [new1 [new2 [Hstep [Hrest ->]]]]].
    destruct (IH c1 new2 c' Hrest) as [c2 [n1 [n2 [H1 [H2 ->]]]]].
    exists c2, (new1 ++ n1), n2.
    split; [ | split; [exact H2 | apply app_assoc]].
    cbn [frameSteps]. exists c1, new1, n1. repeat split; assumption.
Qed.

(** X9. Take a height that is an [int] of at least -1, a table that is
    not empty, a list of columns with [len columns + 1] within [int], and
    in it a falling (active) column whose head [h] is an [int] with
    [h <= height + length + 1], where [height + length] and
    [height + length + 1] are within [int]; and let [n] frames of the
    loop run without panic.  Then the column keeps falling, one row per
    frame, with the same gap, length and colour offset, as long as
    [h + n <= height + length + 1]; the frame after that, frame number
    [height + length + 2 - h], returns it to the gap with head 0, no
    glyph, and freshly sampled gap in [[5,15)] and length in
    [[3, height/2+3]].  A stream that starts at row 1 thus lasts exactly
    [height + length + 1] frames. *)
Theorem stream_lasts (n k : nat) (columns columns' : list column)
    (height : Z) (table : list string) (w w' : World) (c : column) :
  in_int height -> -1 <= height -> table <> [] ->
  in_int (len columns + 1) ->
  nth_error columns k = Some c ->
  active c = true -> in_int (head c) ->
  in_int (height + length c) -> in_int (height + length c + 1) ->
  head c <= height + length c + 1 ->
  runFrames n columns height table w = (Ok columns', w') ->
  (head c + Z.of_nat n <= height + length c + 1 ->
   exists g,
     nth_error columns' k =
     Some (mkColumn true (head c + Z.of_nat n) (gap c) (length c)
                    (colorOffset c) g)) /\
  (head c + Z.of_nat n = height + length c + 2 ->
   exists c',
     nth_error columns' k = Some c' /\
     active c' = false /\ head c' = 0 /\ lastChar c' = 0 /\
     sampled_ok height c').
Proof.
  intros Hi Hh Hne Hfit Hk Hact Hint Hsum0 Hsum Hhead Hrun.
  destruct (runFrames_nth height table Hi Hh Hne n columns w columns' w'
              Hfit Hrun k c Hk) as [c' [new [Hk' Hsteps]]].
  split.
  - intros Hn.
    destruct (steps_falling _ _ _ n c new c' Hact Hint Hsum Hn Hsteps)
      as [g ->].
    exists g. exact Hk'.
  - intros Hn. destruct n as [ | n]; [cbn in Hn; lia | ].
    destruct (frameSteps_last _ _ _ n c new c' Hsteps)
      as [c1 [new1 [new2 [H1 [H2 _]]]]].
    destruct (steps_falling _ _ _ n c new1 c1 Hact Hint Hsum ltac:(lia) H1)
      as [g ->].
    exists c'. split; [exact Hk' | ].
    eapply step_reset; [ | | | | | | exact H2]; try assumption; cbn;
      try reflexivity; try (int_range; lia); lia.
Qed.

Lemma stream_lasts_witness :
  exists columns' w' c',
    runFrames 30 [mkColumn true 1 0 5 2 0] 24 sampleTable sampleWorld
      = (Ok columns', w') /\
    nth_error columns' 0 = Some c' /\ active c' = false /\ head c' = 0.
Proof.
  destruct (runFrames 30 [mkColumn true 1 0 5 2 0] 24 sampleTable sampleWorld)
    as [[columns' | msg] w'] eqn:E; [ | vm_compute in E; discriminate].
  assert (Hend :
    exists c', nth_error columns' 0 = Some c' /\
               active c' = false /\ head c' = 0 /\ lastChar c' = 0 /\
               sampled_ok 24 c').
  { apply (stream_lasts 30 0 [mkColumn true 1 0 5 2 0] columns' 24
             sampleTable sampleWorld w' (mkColumn true 1 0 5 2 0));
      [int_range; lia | lia | discriminate | vm_compute; split; discriminate
      | reflexivity | reflexivity | vm_compute; split; discriminate
      | vm_compute; split; discriminate | vm_compute; split; discriminate
      | vm_compute; discriminate | exact E | vm_compute; reflexivity]. }
  destruct Hend as [c' [Hk [Ha [Hd _]]]].
  exists columns', w', c'. split; [reflexivity | ].
  split; [exact Hk | split; assumption].
Defined.

(** ** Terminal geometry *)

Lemma Atoi_in_int (s : string) (v : Z) : Atoi s = Some v -> in_int v.
Proof.
  unfold Atoi. destruct s as [ | c rest]; [discriminate | ].
  cbv zeta.
  destruct (if Ascii.eqb c "-" || Ascii.eqb c "+" then rest else String c rest);
    [discriminate | ].
  destruct (digits _ 0) as [n | ]; [ | discriminate].
  destruct (andb _ _) eqn:Hr; [ | discriminate].
  intros [= <-]. apply andb_prop in Hr as [H1 H2].
  apply Z.leb_le in H1, H2. split; assumption.
Qed.

Lemma envDimension_pos (value : string) (fallback : Z) :
  0 < fallback -> in_int fallback ->
  0 < envDimension value fallback /\ in_int (envDimension value fallback).
Proof.
  intros Hpos Hint. unfold envDimension.
  destruct (String.eqb value ""); [split; assumption | ].
  destruct (Atoi value) as [v | ] eqn:E; [ | split; assumption].
  destruct (Z.gtb_spec v 0); [ | split; assumption].
  split; [lia | exact (Atoi_in_int value v E)].
Qed.

Lemma ioctlGetWinsize_ok (os : OS) (fd : Z) (width height : Z) :
  ioctlGetWinsize os fd = (width, height, true) ->
  fst (ioctl_TIOCGWINSZ os fd) = 0 /\
  width = Tty.col (snd (ioctl_TIOCGWINSZ os fd)) /\
  height = Tty.row (snd (ioctl_TIOCGWINSZ os fd)) /\
  0 < width /\ 0 < height.
Proof.
  unfold ioctlGetWinsize.
  destruct (ioctl_TIOCGWINSZ os fd) as [errno ws]. cbn [fst snd].
  destruct (errno =? 0) eqn:He; [ | discriminate].
  destruct (Tty.col ws >? 0) eqn:Hc; [ | discriminate].
  destruct (Tty.row ws >? 0) eqn:Hr; [ | discriminate].
  cbn [andb]. intros [= <- <-].
  apply Z.eqb_eq in He. apply Z.gtb_lt in Hc, Hr.
  repeat split; first [assumption | reflexivity].
Qed.

Lemma ioctlGetWinsize_fail (os : OS) (fd : Z) (width height : Z) :
  ioctlGetWinsize os fd = (width, height, false) -> width = 0 /\ height = 0.
Proof.
  unfold ioctlGetWinsize.
  destruct (ioctl_TIOCGWINSZ os fd) as [errno ws].
  destruct (andb _ _); [discriminate | ].
  intros [= <- <-]. split; reflexivity.
Qed.

(** The size [getTerminalSize] reports is positive and an [int]. *)
Lemma getTerminalSize_pos (os : OS) :
  tty_typed os ->
  0 < fst (getTerminalSize os) /\ 0 < snd (getTerminalSize os) /\
  in_int (fst (getTerminalSize os)) /\ in_int (snd (getTerminalSize os)).
Proof.
  intros Hty. unfold getTerminalSize.
  destruct (ioctlGetWinsize os stdoutFd) as [[w1 h1] [ | ]] eqn:E1.
  - destruct (ioctlGetWinsize_ok os stdoutFd w1 h1 E1)
      as [_ [Hw [Hh [Pw Ph]]]].
    destruct (Hty stdoutFd) as [Tr Tc]. cbn [fst snd].
    subst. repeat split; int_range; lia.
  - destruct (ioctlGetWinsize os stdinFd) as [[w2 h2] [ | ]] eqn:E2.
    + destruct (ioctlGetWinsize_ok os stdinFd w2 h2 E2)
        as [_ [Hw [Hh [Pw Ph]]]].
      destruct (Hty stdinFd) as [Tr Tc]. cbn [fst snd].
      subst. repeat split; int_range; lia.
    + cbn [fst snd].
      destruct (envDimension_pos (Getenv os "COLUMNS") 80
                  ltac:(lia) ltac:(int_range; lia)) as [P1 I1].
      destruct (envDimension_pos (Getenv os "LINES") 24
                  ltac:(lia) ltac:(int_range; lia)) as [P2 I2].
      split; [ | split; [ | split]]; assumption.
Qed.

(** X10. [getTerminalSize] follows its fallback chain: the size of the
    ioctl on standard output when that succeeds with non-zero rows and
    columns, else that of the ioctl on standard input, else [COLUMNS] and
    [LINES] where they hold a positive number, else 80 x 24; whatever the
    system answers, both dimensions are positive. *)
Theorem getTerminalSize_fallback (os : OS) :
  tty_typed os ->
  (0 < fst (getTerminalSize os) /\ 0 < snd (getTerminalSize os)) /\
  (forall width height,
     ioctlGetWinsize os stdoutFd = (width, height, true) ->
     getTerminalSize os = (width, height)) /\
  (forall width height,
     snd (ioctlGetWinsize os stdoutFd) = false ->
     ioctlGetWinsize os stdinFd = (width, height, true) ->
     getTerminalSize os = (width, height)) /\
  (snd (ioctlGetWinsize os stdoutFd) = false ->
   snd (ioctlGetWinsize os stdinFd) = false ->
   getTerminalSize os =
   (envDimension (Getenv os "COLUMNS") 80, envDimension (Getenv os "LINES") 24)) /\
  (forall fallback, envDimension "" fallback = fallback) /\
  (forall value fallback,
     (Atoi value = None \/ exists v, Atoi value = Some v /\ v <= 0) ->
     envDimension value fallback = fallback) /\
  (forall value fallback v,
     Atoi value = Some v -> 0 < v -> envDimension value fallback = v).
Proof.
  intros Hty.
  split; [destruct (getTerminalSize_pos os Hty) as [A [B _]]; split; assumption | ].
  split; [ | split; [ | split; [ | split; [ | split]]]].
  - intros width height E. unfold getTerminalSize. rewrite E. reflexivity.
  - intros width height E1 E2. unfold getTerminalSize.
    destruct (ioctlGetWinsize os stdoutFd) as [[w1 h1] b1].
    cbn [snd] in E1. subst b1. rewrite E2. reflexivity.
  - intros E1 E2. unfold getTerminalSize.
    destruct (ioctlGetWinsize os stdoutFd) as [[w1 h1] b1].
    destruct (ioctlGetWinsize os stdinFd) as [[w2 h2] b2].
    cbn [snd] in E1, E2. subst. reflexivity.
  - intros fallback. reflexivity.
  - intros value fallback Hbad. unfold envDimension.
    destruct (String.eqb value ""); [reflexivity | ].
    destruct Hbad as [-> | [v [-> Hv]]]; [reflexivity | ].
    destruct (Z.gtb_spec v 0); [lia | reflexivity].
  - intros value fallback v Hv Hpos. unfold envDimension.
    destruct (String.eqb_spec value "") as [-> | _]; [discriminate | ].
    rewrite Hv. destruct (Z.gtb_spec v 0); [reflexivity | lia].
Qed.

Lemma getTerminalSize_fallback_witness :
  getTerminalSize tty120x40 = (120, 40) /\
  getTerminalSize
    (noTty (fun name => if String.eqb name "LINES" then "50" else "x")%string)
  = (80, 50).
Proof.
  split.
  - destruct (getTerminalSize_fallback tty120x40) as [_ [Hout _]].
    + intros fd. cbn. lia.
    + apply Hout. reflexivity.
  - destruct (getTerminalSize_fallback
                (noTty (fun name =>
                          if String.eqb name "LINES" then "50" else "x")%string))
      as [_ [_ [_ [Henv _]]]].
    + intros fd. cbn. lia.
    + rewrite Henv by reflexivity. reflexivity.
Defined.

Lemma clampDimensions_max (width height : Z) :
  clampDimensions width height = (Z.max width 20, Z.max height 10).
Proof.
  unfold clampDimensions, minTermWidth, minTermHeight.
  destruct (Z.ltb_spec width 20); destruct (Z.ltb_spec height 10);
    f_equal; lia.
Qed.

Lemma initColumns_fresh (mem count height rainbowLen : Z) (w : World) :
  allocatable mem sizeof_column count ->
  0 <= rainbowLen -> in_int height -> -1 <= height ->
  exists cols w',
    initColumns mem count height rainbowLen w = (Ok cols, w') /\
    len cols = count /\ written w' = written w /\
    Forall (fresh_column height rainbowLen) cols.
Proof.
  intros Halloc Hr Hi Hh. unfold initColumns.
  rewrite (makeslice_ok _ _ _ Halloc). destruct Halloc as [Hc _].
  assert (Hmax : (if rainbowLen =? 0 then 1 else rainbowLen) = Z.max 1 rainbowLen)
    by (destruct (Z.eqb_spec rainbowLen 0); lia).
  rewrite Hmax.
  destruct (sampleColumns_ok height (Z.max 1 rainbowLen) Hi Hh ltac:(lia)
              (Z.to_nat count) w) as [cols [w' [E [Hn [Hw HF]]]]].
  exists cols, w'. split; [exact E | ].
  split; [unfold len; rewrite Hn; lia | ]. split; [exact Hw | ].
  eapply Forall_impl; [ | exact HF].
  intros c [Hs [Ha [Hd [Ho Hl]]]]. unfold fresh_column. tauto.
Qed.

Lemma fresh_column_inv (height rainbowLen : Z) (c : column) :
  fresh_column height rainbowLen c -> column_inv height c.
Proof.
  intros [Ha [Hd [_ [[Hg Hl] _]]]]. unfold column_inv.
  split; [lia | ]. split; [lia | ].
  split; [intros Ht; rewrite Ha in Ht; discriminate | intros _; exact Hd].
Qed.

Lemma layout_fresh (mem : Z) (os : OS) (cfg : config)
    (table : list string) (w : World) :
  tty_typed os ->
  allocatable mem sizeof_column
    (calculateColumnCount (Z.max (fst (getTerminalSize os)) 20) (density cfg)) ->
  exists width height columns w',
    layout mem os cfg table w = (Ok (width, height, columns), w') /\
    written w' = written w /\
    width = Z.max (fst (getTerminalSize os)) 20 /\
    height = Z.max (snd (getTerminalSize os)) 10 /\
    len columns = calculateColumnCount width (density cfg) /\
    1 <= len columns <= width /\
    Forall (fresh_column height (len table)) columns.
Proof.
  intros Hty Halloc.
  destruct (getTerminalSize_pos os Hty) as [Pw [Ph [Iw Ih]]].
  unfold layout.
  destruct (getTerminalSize os) as [w0 h0]. cbn [fst snd] in *.
  rewrite clampDimensions_max.
  set (width := Z.max w0 20) in *. set (height := Z.max h0 10).
  assert (Hcount : 1 <= calculateColumnCount width (density cfg) <= width).
  { rewrite calculateColumnCount_clamp. unfold clamp, width. lia. }
  destruct (initColumns_fresh mem (calculateColumnCount width (density cfg))
              height (len table) w Halloc ltac:(unfold len; lia)
              ltac:(unfold height; int_range; lia) ltac:(unfold height; lia))
    as [cols [w' [E [Hl [Hw HF]]]]].
  unfold bind. rewrite E. unfold ret.
  exists width, height, cols, w'.
  split; [reflexivity | ]. split; [exact Hw | ].
  split; [reflexivity | ]. split; [reflexivity | ].
  split; [exact Hl | ]. split; [rewrite Hl; exact Hcount | exact HF].
Qed.

(** X11. The geometry block settles, whatever the system reports, on
    the width [max reported 20] and the height [max reported 10] and asks
    for [calculateColumnCount width density] columns, between 1 and
    [width] of them.  When that many columns are more than [make] allows
    (48 bytes each, more than [maxAlloc] = 2^48 bytes together) the block
    panics with "makeslice: len out of range" and draws nothing.  When
    the slice can be made (within [maxAlloc] and the memory granted) the
    block does not panic and draws nothing, it creates exactly that many
    columns, and every column starts waiting in the gap: inactive, head
    0, no glyph, gap in [[5,15)], length in [[3, height/2+3]], colour
    offset an index of the table. *)
Theorem layout_creates_columns (mem : Z) (os : OS) (cfg : config)
    (table : list string) (w : World) :
  tty_typed os ->
  1 <= calculateColumnCount (Z.max (fst (getTerminalSize os)) 20) (density cfg)
    <= Z.max (fst (getTerminalSize os)) 20 /\
  (maxAlloc < sizeof_column *
     calculateColumnCount (Z.max (fst (getTerminalSize os)) 20) (density cfg) ->
   layout mem os cfg table w = (Panic "makeslice: len out of range", w)) /\
  (allocatable mem sizeof_column
     (calculateColumnCount (Z.max (fst (getTerminalSize os)) 20) (density cfg)) ->
   exists width height columns w',
     layout mem os cfg table w = (Ok (width, height, columns), w') /\
     written w' = written w /\
     width = Z.max (fst (getTerminalSize os)) 20 /\
     height = Z.max (snd (getTerminalSize os)) 10 /\
     len columns = calculateColumnCount width (density cfg) /\
     1 <= len columns <= width /\
     Forall (fresh_column height (len table)) columns).
Proof.
  intros Hty.
  destruct (getTerminalSize_pos os Hty) as [Pw [Ph [Iw Ih]]].
  assert (Hcount :
    1 <= calculateColumnCount (Z.max (fst (getTerminalSize os)) 20) (density cfg)
      <= Z.max (fst (getTerminalSize os)) 20).
  { rewrite calculateColumnCount_clamp. unfold clamp. lia. }
  split; [exact Hcount | ]. split.
  - intros Hbig. unfold layout.
    destruct (getTerminalSize os) as [w0 h0]. cbn [fst snd] in *.
    rewrite clampDimensions_max. unfold bind, initColumns, makeslice.
    destruct (Z.ltb_spec (calculateColumnCount (Z.max w0 20) (density cfg)) 0);
      [lia | ].
    destruct (Z.gtb_spec
                (sizeof_column * calculateColumnCount (Z.max w0 20) (density cfg))
                maxAlloc); [reflexivity | lia].
  - intros Halloc. exact (layout_fresh mem os cfg table w Hty Halloc).
Qed.

Lemma layout_creates_columns_witness :
  (exists columns w',
     layout sampleMemory tty120x40 (mkConfig 5 80) sampleTable sampleWorld
       = (Ok (120, 40, columns), w') /\
     len columns = 96) /\
  layout sampleMemory
    (noTty (fun name => if String.eqb name "COLUMNS"
                        then "1000000000000000"%string else ""%string))
    (mkConfig 5 80) sampleTable sampleWorld
  = (Panic "makeslice: len out of range", sampleWorld).
Proof.
  split.
  - destruct (layout_creates_columns sampleMemory tty120x40 (mkConfig 5 80)
                sampleTable sampleWorld) as [_ [_ Hok]].
    + intros fd. cbn. lia.
    + destruct Hok as [width [height [columns [w' [E [_ [Hw [Hh [Hl _]]]]]]]]].
      * vm_compute. intuition discriminate.
      * cbn in Hw, Hh. subst width height.
        exists columns, w'. split; [exact E | ]. rewrite Hl. reflexivity.
  - destruct (layout_creates_columns sampleMemory
                (noTty (fun name => if String.eqb name "COLUMNS"
                                    then "1000000000000000"%string
                                    else ""%string))
                (mkConfig 5 80) sampleTable sampleWorld) as [_ [Hbig _]].
    + intros fd. cbn. lia.
    + apply Hbig. vm_compute. reflexivity.
Defined.

(** X12. From start-up on, the screen shows the trail windows.  The
    screen is read as an unbounded grid of cells, every instruction
    putting its glyph, or a blank for an erase, at the (row, column) it
    names; the program works with the width [max reported 20] and the
    height [max reported 10], which are larger than a terminal of fewer
    than 20 columns or 10 rows, and what such a terminal does with a
    position outside it is not modelled.  When the reported terminal has
    at most [2^62] rows, the slice of [calculateColumnCount width
    density] columns can be made and the table is not empty, the
    geometry block followed by any number of frames never panics, and on
    a grid that was blank at start-up every column then shows exactly
    the rows [head-length .. head-1] of its falling stream that lie in
    [1 .. height] (a column in the gap is blank), and nothing is drawn
    outside the columns [1 .. numColumns]. *)
Theorem screen_from_startup (mem : Z) (os : OS) (cfg : config)
    (table : list string) (n : nat) (w : World) :
  tty_typed os -> table <> [] ->
  snd (getTerminalSize os) <= 2 ^ 62 ->
  allocatable mem sizeof_column
    (calculateColumnCount (Z.max (fst (getTerminalSize os)) 20) (density cfg)) ->
  exists width height columns w1 columns' w2 new,
    layout mem os cfg table w = (Ok (width, height, columns), w1) /\
    runFrames n columns height table w1 = (Ok columns', w2) /\
    written w2 = written w ++ new /\
    len columns' = len columns /\
    Forall (column_inv height) columns' /\
    screen_inv 0 height columns' (paintAll blank new) /\
    (forall row col, col <= 0 \/ len columns < col ->
                     paintAll blank new row col = None).
Proof.
  intros Hty Hne Hh62 Halloc.
  destruct (layout_fresh mem os cfg table w Hty Halloc)
    as [width [height [columns [w1 [E [Hw [Ewidth [Eheight [Hl [Hcount HF]]]]]]]]]].
  assert (Hsmall : len columns <= 2 ^ 48).
  { destruct Halloc as [_ [Hmax _]]. rewrite <- Ewidth, <- Hl in Hmax.
    unfold sizeof_column, maxAlloc in Hmax. lia. }
  assert (Hheight : 0 <= height <= 2 ^ 62) by lia.
  assert (Hinv : Forall (column_inv height) columns).
  { eapply Forall_impl; [ | exact HF]. intros c. apply fresh_column_inv. }
  assert (Hscr : screen_inv 0 height columns blank).
  { intros k c Hk row. unfold blank. split.
    - intros Habs. exfalso. apply Habs. reflexivity.
    - intros [Hact _]. exfalso.
      apply nth_error_In in Hk.
      rewrite Forall_forall in HF. destruct (HF c Hk) as [Ha _].
      rewrite Ha in Hact. discriminate. }
  destruct (runFrames_ok height table ltac:(int_range; lia) ltac:(lia) Hne
              n columns w1) as [columns' [w2 [E2 Hl2]]].
  destruct (frames_window_helper n height table Hheight Hne columns w1
              columns' w2 blank ltac:(int_range; lia) Hinv Hscr E2)
    as [new [Hw2 [Hscr2 [HF2 [_ Hframe]]]]].
  exists width, height, columns, w1, columns', w2, new.
  split; [exact E | ]. split; [exact E2 | ].
  split; [rewrite Hw2, Hw; reflexivity | ].
  split; [unfold len; congruence | ].
  split; [exact HF2 | ]. split; [exact Hscr2 | ].
  intros row col Hcol. rewrite Hframe by exact Hcol. reflexivity.
Qed.

Lemma screen_from_startup_witness :
  exists width height columns w1 columns' w2,
    layout sampleMemory tty120x40 (mkConfig 5 80) sampleTable sampleWorld
      = (Ok (width, height, columns), w1) /\
    runFrames 2 columns height sampleTable w1 = (Ok columns', w2) /\
    len columns' = len columns.
Proof.
  destruct (screen_from_startup sampleMemory tty120x40 (mkConfig 5 80)
              sampleTable 2 sampleWorld)
    as [width [height [columns [w1 [columns' [w2 [new [E [E2 [_ [Hl _]]]]]]]]]]].
  - intros fd. cbn. lia.
  - discriminate.
  - cbn. lia.
  - vm_compute. intuition discriminate.
  - exists width, height, columns, w1, columns', w2.
    split; [exact E | split; [exact E2 | exact Hl]].
Defined.

(** ** More on parseArguments *)

Lemma parseLoop_valid (n : nat) :
  forall (args : list string) (cfg : config),
    (List.length args <= n)%nat -> valid_config cfg ->
    valid_config (cfg_of (parseLoop cfg args)) /\
    (help_of (parseLoop cfg args) = true -> err_of (parseLoop cfg args) = None).
Proof.
  induction n as [ | n IH]; intros args cfg Hlen Hcfg.
  - destruct args; [ | simpl in Hlen; lia]. split; [exact Hcfg | discriminate].
  - destruct args as [ | arg args]; [split; [exact Hcfg | discriminate] | ].
    cbn [parseLoop].
    destruct (String.eqb arg "-h" || String.eqb arg "--help");
      [split; [exact Hcfg | reflexivity] | ].
    destruct (String.eqb arg "-s" || String.eqb arg "--speed").
    { destruct args as [ | v args]; [split; [exact Hcfg | discriminate] | ].
      destruct (Atoi v) as [value | ]; [ | split; [exact Hcfg | discriminate]].
      destruct (Z.ltb_spec value 1); [split; [exact Hcfg | discriminate] | ].
      destruct (value >? 10) eqn:Hgt;
        [split; [exact Hcfg | discriminate] | ].
      cbn [orb]. apply IH; [simpl in Hlen; lia | ].
      destruct Hcfg as [_ Hd]. split; [ | exact Hd]. cbn [speed].
      destruct (Z.gtb_spec value 10); [discriminate | lia]. }
    destruct (String.eqb arg "-d" || String.eqb arg "--density").
    { destruct args as [ | v args]; [split; [exact Hcfg | discriminate] | ].
      destruct (Atoi v) as [value | ]; [ | split; [exact Hcfg | discriminate]].
      destruct (Z.ltb_spec value 1); [split; [exact Hcfg | discriminate] | ].
      destruct (value >? 100) eqn:Hgt;
        [split; [exact Hcfg | discriminate] | ].
      cbn [orb]. apply IH; [simpl in Hlen; lia | ].
      destruct Hcfg as [Hs _]. split; [exact Hs | ]. cbn [density].
      destruct (Z.gtb_spec value 100); [discriminate | lia]. }
    split; [exact Hcfg | discriminate].
Qed.

Lemma parseArguments_valid (args : list string) :
  valid_config (cfg_of (parseArguments args)).
Proof.
  apply (parseLoop_valid (List.length args) args); [apply le_n | ].
  unfold valid_config, defaultSpeed, defaultDensity. cbn. lia.
Qed.

(** X13. Whatever the arguments, the configuration [parseArguments]
    returns has a speed in 1..10 and a density in 1..100, and a help
    request comes without an error: no value outside the documented
    ranges ever reaches the animation. *)
Theorem parseArguments_config_in_range (args : list string) :
  1 <= speed (cfg_of (parseArguments args)) <= 10 /\
  1 <= density (cfg_of (parseArguments args)) <= 100 /\
  (help_of (parseArguments args) = true -> err_of (parseArguments args) = None).
Proof.
  destruct (parseLoop_valid (List.length args) args
              (mkConfig defaultSpeed defaultDensity) (le_n _))
    as [[Hs Hd] Hhelp].
  - unfold valid_config, defaultSpeed, defaultDensity. cbn. lia.
  - split; [exact Hs | split; [exact Hd | exact Hhelp]].
Qed.

(** X14. Where the scan arrives (the arguments before were consumed
    without help and without error), a help flag stops it with the help
    request and no error, whatever follows; an argument that is none of
    the six flags gives the error "invalid option: " followed by that
    argument; and a speed or density flag that is the last argument
    gives "missing value for " followed by the flag. *)
Theorem parseArguments_stops (pre rest : list string) (cfg : config)
    (arg : string) :
  parseArguments pre = (cfg, false, None) ->
  (is_help_flag arg = true ->
   parseArguments (pre ++ arg :: rest) = (cfg, true, None)) /\
  (is_help_flag arg = false -> is_speed_flag arg = false ->
   is_density_flag arg = false ->
   parseArguments (pre ++ arg :: rest) =
   (cfg, false, Some ("invalid option: " ++ arg)%string)) /\
  (is_speed_flag arg = true \/ is_density_flag arg = true ->
   parseArguments (pre ++ [arg]) =
   (cfg, false, Some ("missing value for " ++ arg)%string)).
Proof.
  intros Hpre. unfold parseArguments in *.
  split; [ | split].
  - intros Hh.
    rewrite (parseLoop_app (List.length pre) pre (arg :: rest) _ _ (le_n _) Hpre).
    unfold is_help_flag in Hh. cbn [parseLoop]. rewrite Hh. reflexivity.
  - intros Hh Hs Hd.
    rewrite (parseLoop_app (List.length pre) pre (arg :: rest) _ _ (le_n _) Hpre).
    unfold is_help_flag in Hh. unfold is_speed_flag in Hs.
    unfold is_density_flag in Hd.
    cbn [parseLoop]. rewrite Hh, Hs, Hd. reflexivity.
  - intros Hflag.
    rewrite (parseLoop_app (List.length pre) pre [arg] _ _ (le_n _) Hpre).
    destruct Hflag as [Hs | Hd].
    + destruct (is_speed_flag_inv arg Hs) as [-> | ->]; reflexivity.
    + destruct (is_density_flag_inv arg Hd) as [-> | ->]; reflexivity.
Qed.

Lemma parseArguments_stops_witness :
  parseArguments ["-s"; "3"; "--fast"; "-d"]%string =
    (mkConfig 3 80, false, Some "invalid option: --fast"%string) /\
  parseArguments ["-s"; "3"; "--density"]%string =
    (mkConfig 3 80, false, Some "missing value for --density"%string).
Proof.
  destruct (parseArguments_stops ["-s"; "3"]%string ["-d"]%string
              (mkConfig 3 80) "--fast"%string eq_refl) as [_ [Hinv _]].
  destruct (parseArguments_stops ["-s"; "3"]%string []
              (mkConfig 3 80) "--density"%string eq_refl) as [_ [_ Hmiss]].
  split.
  - apply Hinv; reflexivity.
  - apply Hmiss. right. reflexivity.
Defined.

(** ** The parsed configuration in use *)

(** X15. With the speed [parseArguments] returns, the frame delay is
    [160 - 12*speed] milliseconds, between 40ms and 148ms: the 20ms floor
    of [calculateFrameDelay] is never reached by a parsed speed, and a
    higher parsed speed always gives a strictly shorter delay. *)
Theorem parsed_speed_delay (args args' : list string) :
  let s := speed (cfg_of (parseArguments args)) in
  let s' := speed (cfg_of (parseArguments args')) in
  calculateFrameDelay s = (160 - 12 * s) * Millisecond /\
  40 * Millisecond <= calculateFrameDelay s <= 148 * Millisecond /\
  (s < s' -> calculateFrameDelay s' < calculateFrameDelay s).
Proof.
  intros s s'.
  destruct (parseArguments_valid args) as [Hs _].
  destruct (parseArguments_valid args') as [Hs' _].
  fold s in Hs. fold s' in Hs'.
  assert (E : forall x, 1 <= x <= 10 ->
                        calculateFrameDelay x = (160 - 12 * x) * Millisecond).
  { intros x Hx. rewrite calculateFrameDelay_exact.
    - rewrite Z.max_r by lia. f_equal. lia.
    - unfold safe_speed, Millisecond. int_range. lia. }
  rewrite (E s Hs), (E s' Hs'). unfold Millisecond. lia.
Qed.

(** X16. With a density in 1..100, as [parseArguments] returns it, and a
    width from 1 to 65535, as the ioctl reports it, the product does not
    overflow and the column count is [max(1, width*density/100)]: only
    the lower bound of the clamp is ever used, the count does not
    decrease when the density grows, and density 100 fills every column. *)
Theorem validated_column_count (width density density' : Z) :
  1 <= width <= 65535 -> 1 <= density <= 100 -> 1 <= density' <= 100 ->
  calculateColumnCount width density = Z.max 1 (width * density / 100) /\
  (density <= density' ->
   calculateColumnCount width density <= calculateColumnCount width density') /\
  calculateColumnCount width 100 = width.
Proof.
  intros Hw Hd Hd'.
  assert (E : forall d, 1 <= d <= 100 ->
                        calculateColumnCount width d = Z.max 1 (width * d / 100)).
  { intros d Hd0. rewrite calculateColumnCount_clamp.
    unfold mul. rewrite wrap_id by (int_range; nia).
    rewrite clamp_quot_div. unfold clamp.
    assert (width * d / 100 <= width).
    { apply Z.div_le_upper_bound; nia. }
    lia. }
  split; [apply E, Hd | split].
  - intros Hle. rewrite (E density Hd), (E density' Hd').
    assert (width * density / 100 <= width * density' / 100)
      by (apply Z.div_le_mono; nia).
    lia.
  - rewrite (E 100) by lia.
    replace (width * 100 / 100) with width by (symmetry; apply Z.div_mul; lia).
    lia.
Qed.

Lemma validated_column_count_witness :
  calculateColumnCount 120 80 = Z.max 1 (120 * 80 / 100) /\
  calculateColumnCount 120 100 = 120.
Proof.
  destruct (validated_column_count 120 80 100
              ltac:(lia) ltac:(lia) ltac:(lia)) as [E [_ Hfull]].
  split; [exact E | exact Hfull].
Defined.

(** ** The rainbow table in use *)

(** X17. [rainbowColor] never indexes outside the table: on the empty
    table it answers white, "255;255;255"; on any other table it answers
    one of the entries, whatever the position, and for a position inside
    the table the entry at that position. *)
Theorem rainbowColor_lookup (table : list string) (p : Z) :
  (table = [] -> rainbowColor table p = "255;255;255"%string) /\
  (table <> [] -> In (rainbowColor table p) table) /\
  (0 <= p < len table ->
   rainbowColor table p = nth (Z.to_nat p) table ""%string).
Proof.
  split; [intros ->; reflexivity | split].
  - intros Hne. rewrite rainbowColor_mod by exact Hne.
    pose proof (Z.mod_pos_bound p (len table) (len_pos table Hne)).
    apply nth_In. unfold len in *. lia.
  - intros Hp.
    assert (Hne : table <> []).
    { intros ->. unfold len in Hp. simpl in Hp. lia. }
    rewrite rainbowColor_mod by exact Hne.
    rewrite Z.mod_small by exact Hp. reflexivity.
Qed.

Lemma rainbowColor_lookup_witness :
  In (rainbowColor sampleTable (-100)) sampleTable /\
  rainbowColor sampleTable 2 = "153;222;7"%string.
Proof.
  destruct (rainbowColor_lookup sampleTable (-100)) as [_ [Hin _]].
  destruct (rainbowColor_lookup sampleTable 2) as [_ [_ Hat]].
  split; [apply Hin; discriminate | ].
  rewrite Hat by (cbn; lia). reflexivity.
Defined.

(** X18. [buildRainbowTable] panics in [make], with "makeslice: len out
    of range", on a negative cycle and on a cycle of more entries than
    [make] allows (16 bytes each, more than [maxAlloc] = 2^48 bytes
    together); where the table can be made (within [maxAlloc] and the
    memory granted) it returns exactly [cycle] entries, and for a
    positive cycle the colour [rainbowColor] finds at any position [p],
    negative or not, is the entry computed for the index [p mod cycle]. *)
Theorem buildRainbowTable_lookup (mem : Z) (Sin : float -> float) (f : float)
    (cycle : Z) :
  (cycle < 0 \/ maxAlloc < sizeof_string * cycle ->
   buildRainbowTable mem Sin f cycle = Panic "makeslice: len out of range") /\
  (allocatable mem sizeof_string cycle ->
   exists table,
     buildRainbowTable mem Sin f cycle = Ok table /\ len table = cycle /\
     (0 < cycle ->
      forall p, rainbowColor table p = rainbowEntry Sin f (p mod cycle))).
Proof.
  split.
  - intros Hbad. unfold buildRainbowTable, makeslice.
    destruct (Z.ltb_spec cycle 0); [reflexivity | ].
    destruct (Z.gtb_spec (sizeof_string * cycle) maxAlloc);
      [reflexivity | lia].
  - intros Halloc. rewrite (buildRainbowTable_ok mem Sin f cycle Halloc).
    destruct Halloc as [Hc _].
    eexists. split; [reflexivity | ].
    assert (Hlen : len (fillTable Sin f 0 (Z.to_nat cycle)) = cycle)
      by (unfold len; rewrite fillTable_length; lia).
    split; [exact Hlen | ].
    intros Hpos p.
    assert (Hne : fillTable Sin f 0 (Z.to_nat cycle) <> []).
    { intros Habs. rewrite Habs in Hlen. unfold len in Hlen. simpl in Hlen. lia. }
    rewrite rainbowColor_mod by exact Hne. rewrite Hlen.
    pose proof (Z.mod_pos_bound p cycle Hpos).
    rewrite fillTable_nth by lia.
    rewrite Z.add_0_l, Z2Nat.id by lia. reflexivity.
Qed.

Lemma buildRainbowTable_lookup_witness :
  buildRainbowTable sampleMemory sineOfEntry0 rainbowFreq (2 ^ 44 + 1)
    = Panic "makeslice: len out of range" /\
  exists table,
    buildRainbowTable sampleMemory sineOfEntry0 rainbowFreq rainbowCycle
      = Ok table /\
    rainbowColor table (-63) = "128;237;18"%string.
Proof.
  destruct (buildRainbowTable_lookup sampleMemory sineOfEntry0 rainbowFreq
              (2 ^ 44 + 1)) as [Hbig _].
  destruct (buildRainbowTable_lookup sampleMemory sineOfEntry0 rainbowFreq
              rainbowCycle) as [_ Hok].
  split; [apply Hbig; right; vm_compute; reflexivity | ].
  destruct Hok as [table [E [_ Hlook]]]; [vm_compute; intuition discriminate | ].
  exists table. split; [exact E | ].
  rewrite (Hlook ltac:(unfold rainbowCycle; lia) (-63)).
  vm_compute. reflexivity.
Defined.

(** ** Edge cases of initColumns *)

Lemma skipn_tl {A : Type} (n : nat) (l : list A) :
  skipn n (tl l) = skipn (S n) l.
Proof. destruct l; [destruct n; reflexivity | reflexivity]. Qed.

Lemma sampleColumns_draws (height rainbowLen : Z) :
  in_int height -> -1 <= height -> 0 < rainbowLen ->
  forall (count : nat) (w : World),
    rng (snd (sampleColumns count height rainbowLen w))
    = skipn (3 * count) (rng w).
Proof.
  intros Hi Hh Hlen.
  destruct (length_bound_exact height Hi Hh) as [Hb Hpos].
  induction count as [ | count IH]; intros w; [reflexivity | ].
  cbn [sampleColumns]. unfold bind at 1.
  destruct (randIntn_ok 10 w ltac:(lia)) as [E1 _]. rewrite E1.
  unfold bind at 1. rewrite Hb.
  destruct (randIntn_ok (Z.quot height 2 + 1)
              (mkWorld (tl (rng w)) (written w)) Hpos) as [E2 _].
  rewrite E2. cbn [rng written]. unfold bind at 1.
  destruct (randIntn_ok rainbowLen
              (mkWorld (tl (tl (rng w))) (written w)) Hlen) as [E3 _].
  rewrite E3. cbn [rng written]. unfold bind at 1.
  specialize (IH (mkWorld (tl (tl (tl (rng w)))) (written w))).
  destruct (sampleColumns count height rainbowLen _) as [[cols | msg] w'];
    cbn [snd rng] in *; unfold ret; cbn [snd];
    rewrite IH; rewrite !skipn_tl;
    replace (3 * S count)%nat with (S (S (S (3 * count)))) by lia;
    reflexivity.
Qed.

(** X20. [initColumns] at its edges: a negative count, and a count of
    more columns than [make] allows (48 bytes each, more than [maxAlloc]
    = 2^48 bytes together, that is from 5864062014806 columns on), panics
    in [make] with "makeslice: len out of range" before anything is drawn
    from the random source; a count of 0 gives no column and draws
    nothing, whatever the height; where the slice can be made (within
    [maxAlloc] and the memory granted), a positive count with a height
    below -1 panics in [rand.Intn], and for a height of at least -1
    exactly three draws per column are taken from the source, a table
    length of 0 being treated as 1 (colour offset 0). *)
Theorem initColumns_edges (mem count height rainbowLen : Z) (w : World) :
  in_int height -> 0 <= rainbowLen ->
  (count < 0 \/ maxAlloc < sizeof_column * count ->
   initColumns mem count height rainbowLen w
   = (Panic "makeslice: len out of range", w)) /\
  (count = 0 -> initColumns mem count height rainbowLen w = (Ok [], w)) /\
  (0 < count -> allocatable mem sizeof_column count -> height < -1 ->
   fst (initColumns mem count height rainbowLen w)
   = Panic "invalid argument to Intn") /\
  (allocatable mem sizeof_column count -> -1 <= height ->
   exists cols w',
     initColumns mem count height rainbowLen w = (Ok cols, w') /\
     len cols = count /\
     rng w' = skipn (3 * Z.to_nat count) (rng w) /\
     (rainbowLen = 0 -> Forall (fun c => colorOffset c = 0) cols)).
Proof.
  intros Hi Hr.
  split; [ | split; [ | split]].
  - intros Hbad. unfold initColumns, makeslice.
    destruct (Z.ltb_spec count 0); [reflexivity | ].
    destruct (Z.gtb_spec (sizeof_column * count) maxAlloc);
      [reflexivity | lia].
  - intros ->. unfold initColumns, makeslice. cbn [Z.ltb Z.mul orb].
    rewrite Z.mul_0_r.
    destruct (Z.gtb_spec 0 (Z.max mem 0)); [lia | reflexivity].
  - intros Hpos Halloc Hlow. unfold initColumns.
    rewrite (makeslice_ok _ _ _ Halloc).
    destruct (Z.to_nat count) as [ | n] eqn:En; [lia | ].
    cbn [sampleColumns]. unfold bind at 1.
    destruct (randIntn_ok 10 w ltac:(lia)) as [E1 _]. rewrite E1.
    unfold bind at 1. unfold randIntn at 1, Intn.
    assert (Hle : add (quot height 2) 1 <= 0).
    { pose proof (Z.quot_rem' height 2).
      destruct (rem_pos_divisor height 2 ltac:(lia)) as [_ Hn].
      specialize (Hn ltac:(lia)).
      unfold add, quot.
      rewrite (wrap_id (Z.quot height 2)) by (int_range; lia).
      rewrite wrap_id by (int_range; lia). lia. }
    destruct (Z.leb_spec (add (quot height 2) 1) 0); [reflexivity | lia].
  - intros Halloc Hh.
    destruct (initColumns_fresh mem count height rainbowLen w Halloc Hr Hi Hh)
      as [cols [w' [E [Hl [_ HF]]]]].
    exists cols, w'. split; [exact E | ]. split; [exact Hl | ].
    unfold initColumns in E. rewrite (makeslice_ok _ _ _ Halloc) in E.
    split.
    + pose proof (sampleColumns_draws height
                    (if rainbowLen =? 0 then 1 else rainbowLen) Hi Hh
                    ltac:(destruct (Z.eqb_spec rainbowLen 0); lia)
                    (Z.to_nat count) w) as Hd.
      rewrite E in Hd. exact Hd.
    + intros ->. eapply Forall_impl; [ | exact HF].
      intros c [_ [_ [_ [_ Ho]]]]. cbn in Ho. lia.
Qed.

Lemma initColumns_edges_witness :
  initColumns sampleMemory (-1) 24 63 sampleWorld
    = (Panic "makeslice: len out of range", sampleWorld) /\
  initColumns sampleMemory 5864062014806 24 63 sampleWorld
    = (Panic "makeslice: len out of range", sampleWorld) /\
  fst (initColumns sampleMemory 2 (-7) 63 sampleWorld)
    = Panic "invalid argument to Intn" /\
  exists cols w',
    initColumns sampleMemory 2 24 0 sampleWorld = (Ok cols, w') /\
    rng w' = [54] /\ Forall (fun c => colorOffset c = 0) cols.
Proof.
  destruct (initColumns_edges sampleMemory (-1) 24 63 sampleWorld
              ltac:(int_range; lia) ltac:(lia)) as [Hneg _].
  destruct (initColumns_edges sampleMemory 5864062014806 24 63 sampleWorld
              ltac:(int_range; lia) ltac:(lia)) as [Hbig _].
  destruct (initColumns_edges sampleMemory 2 (-7) 63 sampleWorld
              ltac:(int_range; lia) ltac:(lia)) as [_ [_ [Hlow _]]].
  destruct (initColumns_edges sampleMemory 2 24 0 sampleWorld
              ltac:(int_range; lia) ltac:(lia)) as [_ [_ [_ Hok]]].
  split; [apply Hneg; left; lia | ].
  split; [apply Hbig; right; vm_compute; reflexivity | ].
  split; [apply Hlow; [lia | vm_compute; intuition discriminate | lia] | ].
  destruct Hok as [cols [w' [E [_ [Hd H0]]]]];
    [vm_compute; intuition discriminate | lia | ].
  exists cols, w'. split; [exact E | ]. split; [exact Hd | ].
  apply H0. reflexivity.
Defined.

(** ** A whole cycle of a column *)

Lemma frameSteps_split idx height table :
  forall (a b : nat) c new c',
    frameSteps (a + b) idx height table c new c' ->
    exists c1 new1 new2,
      frameSteps a idx height table c new1 c1 /\
      frameSteps b idx height table c1 new2 c' /\
      new = new1 ++ new2.
Proof.
  induction a as [ | a IH]; intros b c new c' Hsteps.
  - exists c, [], new. split; [split; reflexivity | split; [exact Hsteps | reflexivity]].
  - cbn [Nat.add frameSteps] in Hsteps.
    destruct Hsteps as [c1 [new1 [new2 [Hstep [Hrest ->]]]]].
    destruct (IH b c1 new2 c' Hrest) as [c2 [n1 [n2 [H1 [H2 ->]]]]].
    exists c2, (new1 ++ n1), n2.
    split; [ | split; [exact H2 | apply app_assoc]].
    cbn [frameSteps]. exists c1, new1, n1. repeat split; assumption.
Qed.

(** The frame that activates a column whose countdown is over. *)
Lemma step_activate idx height table c new c' :
  active c = false -> gap c = 0 ->
  in_int (height + length c) -> 1 <= height + length c ->
  frameStep idx height table c new c' ->
  exists g, c' = mkColumn true 2 0 (length c) (colorOffset c) g.
Proof.
  intros Hact Hgap Hfit Hlive Hstep.
  destruct (frameStep_written idx height table c new c' Hstep)
    as [w [w' [E _]]].
  assert (Hcd : countingDown c = false)
    by (unfold countingDown; rewrite Hact, Hgap; reflexivity).
  destruct (frameColumn_fields c) as [Fl [Fo [Fc [Fg Fa]]]].
  assert (Hhd : head (frameColumn c) = 1)
    by (unfold frameColumn; rewrite Hact; reflexivity).
  rewrite (drawColumnFrame_goes_on idx c height table w Hcd) in E.
  - injection E as <- _. rewrite Hhd, Fl, Fo, Fg, Hgap.
    eexists. reflexivity.
  - rewrite Hhd, Fl. unfold add. rewrite wrap_id by exact Hfit.
    destruct (Z.gtb_spec 1 (height + length c)); [lia | reflexivity].
Qed.

(** X21. The cycle of a column.  On a terminal of at most [2^62] rows
    with a non-empty table, a column that waits in the gap with countdown
    [gap] and satisfies the column invariant is falling with its head at
    row [m - gap + 1] after [m] frames of the loop, for every [m] from
    [gap + 1] to [gap + height + length], and after exactly
    [gap + height + length + 1] frames it waits in the gap again, with a
    freshly sampled gap and length. *)
Theorem column_cycle (m k : nat) (columns columns' : list column)
    (height : Z) (table : list string) (w w' : World) (c : column) :
  0 <= height <= 2 ^ 62 -> table <> [] ->
  in_int (len columns + 1) ->
  nth_error columns k = Some c ->
  column_inv height c -> active c = false ->
  runFrames m columns height table w = (Ok columns', w') ->
  (gap c + 1 <= Z.of_nat m <= gap c + height + length c ->
   exists g,
     nth_error columns' k =
     Some (mkColumn true (Z.of_nat m - gap c + 1) 0 (length c)
                    (colorOffset c) g)) /\
  (Z.of_nat m = gap c + height + length c + 1 ->
   exists c',
     nth_error columns' k = Some c' /\
     active c' = false /\ head c' = 0 /\ lastChar c' = 0 /\
     sampled_ok height c').
Proof.
  intros Hh Hne Hfit Hk [Hl [Hg [_ Hi]]] Hact Hrun.
  specialize (Hi Hact).
  destruct (quot_2_bounds height ltac:(lia)) as [Q0 [Q1 Q2]].
  destruct (runFrames_nth height table ltac:(int_range; lia) ltac:(lia) Hne
              m columns w columns' w' Hfit Hrun k c Hk)
    as [c' [new [Hk' Hsteps]]].
  assert (Hwait :
    forall rest newr cr,
      frameSteps (Z.to_nat (gap c) + S rest) (Z.of_nat k) height table c newr cr ->
      exists g newf,
        frameSteps rest (Z.of_nat k) height table
          (mkColumn true 2 0 (length c) (colorOffset c) g) newf cr).
  { intros rest newr cr Hs.
    destruct (frameSteps_split _ _ _ (Z.to_nat (gap c)) (S rest) c newr cr Hs)
      as [c1 [n1 [n2 [H1 [H2 _]]]]].
    destruct (steps_countdown _ _ _ (Z.to_nat (gap c)) c n1 c1 Hact
                ltac:(int_range; lia) ltac:(lia) H1) as [_ ->].
    rewrite Z2Nat.id in H2 by lia. rewrite Z.sub_diag in H2.
    destruct H2 as [c2 [n3 [n4 [Hstep [Hrest _]]]]].
    apply step_activate in Hstep;
      [ | reflexivity | reflexivity | cbn; int_range; lia | cbn; lia].
    destruct Hstep as [g ->].
    cbn [length colorOffset] in Hrest. exists g, n4. exact Hrest. }
  split.
  - intros Hm.
    set (n := (m - Z.to_nat (gap c) - 1)%nat).
    assert (Hn : Z.of_nat n = Z.of_nat m - gap c - 1) by (unfold n; lia).
    replace m with (Z.to_nat (gap c) + S n)%nat in Hsteps by (unfold n; lia).
    clearbody n.
    destruct (Hwait _ new c' Hsteps) as [g [newf Hfall]].
    apply steps_falling in Hfall;
      [ | reflexivity | cbn [head length]; int_range; lia
        | cbn [head length]; int_range; lia | cbn [head length]; lia].
    destruct Hfall as [g' ->].
    exists g'. rewrite Hk'. cbn [head gap length colorOffset].
    replace (2 + Z.of_nat n) with (Z.of_nat m - gap c + 1) by lia.
    reflexivity.
  - intros Hm.
    set (n := Z.to_nat (height + length c - 1)).
    assert (Hn : Z.of_nat n = height + length c - 1) by (unfold n; lia).
    replace m with (Z.to_nat (gap c) + S (S n))%nat in Hsteps
      by (unfold n; lia).
    clearbody n.
    destruct (Hwait _ new c' Hsteps) as [g [newf Hfall]].
    destruct (frameSteps_last _ _ _ _ _ newf c' Hfall)
      as [c3 [n5 [n6 [H5 [H6 _]]]]].
    apply steps_falling in H5;
      [ | reflexivity | cbn [head length]; int_range; lia
        | cbn [head length]; int_range; lia | cbn [head length]; lia].
    destruct H5 as [g' ->].
    exists c'. split; [exact Hk' | ].
    eapply step_reset; [ | | | | | | exact H6]; cbn [active head length];
      try reflexivity; try exact Hne; try (int_range; lia); lia.
Qed.

Lemma column_cycle_witness :
  exists columns' w' c',
    runFrames 32 [mkColumn false 0 2 5 1 0] 24 sampleTable sampleWorld
      = (Ok columns', w') /\
    nth_error columns' 0 = Some c' /\ active c' = false /\ head c' = 0.
Proof.
  destruct (runFrames 32 [mkColumn false 0 2 5 1 0] 24 sampleTable sampleWorld)
    as [[columns' | msg] w'] eqn:E; [ | vm_compute in E; discriminate].
  assert (Hend :
    exists c', nth_error columns' 0 = Some c' /\
               active c' = false /\ head c' = 0 /\ lastChar c' = 0 /\
               sampled_ok 24 c').
  { apply (column_cycle 32 0 [mkColumn false 0 2 5 1 0] columns' 24
             sampleTable sampleWorld w' (mkColumn false 0 2 5 1 0));
      [lia | discriminate | vm_compute; split; discriminate | reflexivity
      | | reflexivity | exact E | vm_compute; reflexivity].
    unfold column_inv. cbn. change (Z.quot 24 2) with 12.
    split; [lia | split; [lia | split; [discriminate | reflexivity]]]. }
  destruct Hend as [c' [Hk [Ha [Hd _]]]].
  exists columns', w', c'. split; [reflexivity | ].
  split; [exact Hk | split; assumption].
Defined.
